(** * Trax research models: padding-aware concatenation and Terraformer set-up

    A shallow embedding of the parts of
    [trax/models/research/transformer_no_enc_dec_attention.py] and
    [trax/models/research/terraformer.py] that carry behaviour of their own:
    the two layers [ConcatWithPadding] and [StripFromConcatenateWithPadding],
    the head-count validation of [ConfigurableTerraformer], the recursive
    builder [_ReversibleSerialForget] and the guard [_ConvertToNaNsOnAnyZero].

    Arrays are modelled as numpy has them: a shape tuple and a row-major
    buffer.  Python exceptions are values of a result type.  Python ints are
    unbounded integers, and Python floats are binary64 numbers with their
    rounding. *)

From Stdlib Require Import String.
From Stdlib Require Import ZArith List Lia Bool QArith Qround Qabs Qpower Lqa.
From Stdlib Require Import Floats.SpecFloat.
From Equations Require Import Equations.
Import ListNotations.

Set Implicit Arguments.
Set Warnings "-register-all".
Close Scope Q_scope.

(** ** Python exceptions as results *)

Module Py.

(** The messages of the [ValueError]s raised in the two files.  Each one
    carries the values that the f-string of the source interpolates. *)
Inductive message : Type :=
| DecoderVectorShape (got expected : list nat)
| EncoderMaskShape (got expected : list nat)
| LengthMismatch (L L1 L2 : nat)
| EncoderTokensShape (got expected : list nat)
| DecoderTokensShape (got expected : list nat)
| Unpack (expected got : nat)
| LeadingAxis (sizes : list nat)
| HeadsMustDivide (n_heads : Z) (half_d_model : Q).

Inductive exn : Type :=
| ValueError (m : message)
| IndexError
| TypeError
| ZeroDivisionError
| OverflowError.

Inductive res (A : Type) : Type :=
| Ok (a : A)
| Raise (e : exn).
Arguments Ok {A} a.
Arguments Raise {A} e.

Definition bind {A B : Type} (r : res A) (k : A -> res B) : res B :=
  match r with
  | Ok a => k a
  | Raise e => Raise e
  end.

Definition raises {A : Type} (r : res A) : Prop :=
  exists e, r = Raise e.

Definition is_ok {A : Type} (r : res A) : bool :=
  match r with Ok _ => true | Raise _ => false end.

End Py.
Import Py.

Declare Scope py_scope.
Delimit Scope py_scope with py.
Notation "x <- r ;; k" := (bind r (fun x => k))
  (at level 61, r at next level, right associativity) : py_scope.
Notation "'check' b 'else_raise' e ;; k" := (if b then k else Raise e)
  (at level 61, b at next level, e at next level, right associativity) : py_scope.
Notation "' pat <- r ;; k" :=
  (bind r (fun x => match x with pat => k end))
  (at level 61, pat pattern, r at next level, right associativity) : py_scope.
Open Scope py_scope.

Fixpoint mapM {A B : Type} (f : A -> res B) (l : list A) : res (list B) :=
  match l with
  | [] => Ok []
  | x :: xs => y <- f x ;; ys <- mapM f xs ;; Ok (y :: ys)
  end.

(** ** Arrays: a shape and a row-major buffer *)

Module Jnp.

Record ndarray (A : Type) : Type := NDArray { shape : list nat; data : list A }.

(** Number of elements of an array of shape [s]. *)
Definition size_of (s : list nat) : nat := fold_right Nat.mul 1 s.

(** Every array of the framework holds as many elements as its shape says. *)
Definition well_formed {A : Type} (a : ndarray A) : Prop :=
  length (data a) = size_of (shape a).

(** The [i]-th run of [h] consecutive elements of a buffer. *)
Definition block {A : Type} (h : nat) (l : list A) (i : nat) : list A :=
  firstn h (skipn (i * h) l).

(** [a[i]]: the [i]-th item along the leading axis. *)
Definition item {A : Type} (a : ndarray A) (i : nat) : ndarray A :=
  NDArray (tl (shape a)) (block (size_of (tl (shape a))) (data a) i).

(** Comparison of two shape tuples, Python's [==] on tuples of ints. *)
Definition shape_eqb (s t : list nat) : bool :=
  if list_eq_dec Nat.eq_dec s t then true else false.

(** [B, L, H = a.shape]: unpacking a tuple into three names. *)
Definition unpack3 (s : list nat) : res (nat * nat * nat) :=
  match s with
  | [b; l; h] => Ok (b, l, h)
  | _ => Raise (ValueError (Unpack 3 (length s)))
  end.

(** [a.shape[i]]: indexing a tuple. *)
Definition index (s : list nat) (i : nat) : res nat :=
  match nth_error s i with
  | Some d => Ok d
  | None => Raise IndexError
  end.

(** [a.reshape(s)]. *)
Definition reshape {A : Type} (a : ndarray A) (s : list nat) : res (ndarray A) :=
  if length (data a) =? size_of s then Ok (NDArray s (data a))
  else Raise TypeError.

(** Wrap-around of a sum accumulated in [int32]. *)
Definition int32 (z : Z) : Z := ((z + 2 ^ 31) mod 2 ^ 32 - 2 ^ 31)%Z.

(** [jnp.sum(a, dtype=jnp.int32)] over all elements. *)
Definition sum_int32 (a : ndarray Z) : Z :=
  int32 (fold_right Z.add 0%Z (data a)).

(** [a != 0], elementwise; [True] and [False] are kept as [1] and [0]. *)
Definition not_equal_zero (a : ndarray Z) : ndarray Z :=
  NDArray (shape a) (map (fun t => if (t =? 0)%Z then 0%Z else 1%Z) (data a)).

(** [jnp.all(y)]: every element is nonzero. *)
Definition all (y : ndarray Z) : bool :=
  forallb (fun v => negb (v =? 0)%Z) (data y).

(** [jnp.where(c, x, y)] for a scalar condition [c]. *)
Definition where_ {A : Type} (c : bool) (x y : ndarray A) : ndarray A :=
  if c then x else y.

(** Start index of a dynamic slice of [size] items in an axis of [dim]
    items (jax.lax.dynamic_slice and dynamic_update_slice): a negative index
    counts from the end, and the result is clamped so that the slice stays
    inside the operand. *)
Definition start_index (i : Z) (dim size : nat) : nat :=
  let i' := if (i <? 0)%Z then (i + Z.of_nat dim)%Z else i in
  Z.to_nat (Z.max 0 (Z.min i' (Z.of_nat dim - Z.of_nat size))).

(** Row [r] of the slice of [m] by [w] items taken at [(si, sj)] from a
    matrix with rows of [h] items. *)
Definition slice_block {A : Type} (h w si sj : nat) (od : list A) (r : nat)
  : list A :=
  firstn w (skipn sj (block h od (si + r))).

(** [jax.lax.dynamic_slice(operand, (i, j), (m, w))] on a matrix. *)
Definition dynamic_slice {A : Type} (operand : ndarray A)
    (start : Z * Z) (sizes : nat * nat) : res (ndarray A) :=
  match shape operand with
  | [n; h] =>
      let '(m, w) := sizes in
      if (m <=? n) && (w <=? h) then
        let si := start_index (fst start) n m in
        let sj := start_index (snd start) h w in
        Ok (NDArray [m; w]
              (concat (map (slice_block h w si sj (data operand)) (seq 0 m))))
      else Raise TypeError
  | _ => Raise TypeError
  end.

(** Row [r] of a matrix with rows of [h] items after an update of [m] rows
    of [w] items has been written at [(si, sj)]. *)
Definition update_block {A : Type} (h w si sj m : nat) (od ud : list A)
    (r : nat) : list A :=
  let old := block h od r in
  if (si <=? r) && (r <? si + m) then
    firstn sj old ++ block w ud (r - si) ++ skipn (sj + w) old
  else old.

(** [jax.lax.dynamic_update_slice(operand, update, (i, j))] on matrices. *)
Definition dynamic_update_slice {A : Type} (operand update : ndarray A)
    (start : Z * Z) : res (ndarray A) :=
  match shape operand, shape update with
  | [n; h], [m; w] =>
      if (m <=? n) && (w <=? h) then
        let si := start_index (fst start) n m in
        let sj := start_index (snd start) h w in
        Ok (NDArray [n; h]
              (concat (map (update_block h w si sj m
                              (data operand) (data update))
                           (seq 0 n))))
      else Raise TypeError
  | _, _ => Raise TypeError
  end.

(** [jnp.concatenate([a, b], axis=0)]. *)
Definition concatenate0 {A : Type} (a b : ndarray A) : res (ndarray A) :=
  match shape a, shape b with
  | n :: sa, m :: sb =>
      if shape_eqb sa sb then Ok (NDArray ((n + m) :: sa) (data a ++ data b))
      else Raise TypeError
  | _, _ => Raise TypeError
  end.

(** [jax.lax.map(f, [a, b, c])]: [f] is traced once on the item shapes, then
    applied to every triple of items along the leading axis, and the results
    are stacked. *)
Definition lax_map3 {A B C D : Type}
    (f : ndarray A * ndarray B * ndarray C -> res (ndarray D))
    (xs : ndarray A * ndarray B * ndarray C) : res (ndarray D) :=
  let '(a, b, c) := xs in
  match shape a, shape b, shape c with
  | n :: _, nb :: _, nc :: _ =>
      check (n =? nb) && (n =? nc)
        else_raise ValueError (LeadingAxis [n; nb; nc]) ;;
      traced <- f (item a 0, item b 0, item c 0) ;;
      rows <- mapM (fun i => f (item a i, item b i, item c i)) (seq 0 n) ;;
      Ok (NDArray (n :: shape traced) (concat (map (@data D) rows)))
  | _, _, _ => Raise TypeError
  end.

Section Zeros.
Variable T : Type.
Variable zero : T.

(** [jnp.zeros_like(a)]. *)
Definition zeros_like (a : ndarray T) : ndarray T :=
  NDArray (shape a) (repeat zero (size_of (shape a))).

End Zeros.

End Jnp.
Import Jnp.

(** ** transformer_no_enc_dec_attention.py: the two layers *)

(** A layer instance: its mode and its state array. *)
Record layer : Type := Layer { _mode : string; state : ndarray Z }.

Definition set_state (self : layer) (s : ndarray Z) : layer :=
  Layer (_mode self) s.

(** The state holds one integer: [init_weights_and_state] sets it so and
    [reshape((1,))] keeps it so. *)
Definition state_ready (self : layer) : Prop :=
  length (data (state self)) = 1.

(** An instance as its first [forward] leaves it: the state of
    [init_weights_and_state], reshaped to [(1,)]. *)
Definition called_once (self : layer) : layer :=
  set_state self (NDArray [1] [0%Z]).

(** [not self.state.shape]: the shape tuple is empty. *)
Definition shape_is_empty (s : list nat) : bool :=
  match s with [] => true | _ => false end.

(** [lambda x: x != 0], the layer named EncoderMask of the model. *)
Definition EncoderMask (tok_e : ndarray Z) : ndarray Z := not_equal_zero tok_e.

Module ConcatWithPadding.
Section Layer.
Variable T : Type.
Variable zero : T.

Definition _UpdateRow (x : ndarray T * ndarray T * ndarray Z)
  : res (ndarray T) :=
  let '(row_e, row_d, row_mask_e) := x in
  final_row <- concatenate0 row_e (zeros_like zero row_d) ;;
  let e_idx := sum_int32 row_mask_e in
  let zero_idx := 0%Z in
  dynamic_update_slice final_row row_d (e_idx, zero_idx).

Definition _ConcatWithPadding (vec_e vec_d : ndarray T) (mask_e : ndarray Z)
  : res (ndarray T) :=
  '(B, L1, H) <- unpack3 (shape vec_e) ;;
  L2 <- index (shape vec_d) 1 ;;
  check shape_eqb (shape vec_d) [B; L2; H]
    else_raise ValueError (DecoderVectorShape (shape vec_d) [B; L2; H]) ;;
  check shape_eqb (shape mask_e) [B; L1]
    else_raise ValueError (EncoderMaskShape (shape mask_e) [B; L1]) ;;
  lax_map3 _UpdateRow (vec_e, vec_d, mask_e).

Definition init_weights_and_state (self : layer) : layer :=
  set_state self (NDArray [] [0%Z]).

(** [forward] returns the instance as the call leaves it together with the
    value returned or the exception raised.  The state is assigned before
    [_ConcatWithPadding] runs, so it is kept when that call raises. *)
Definition forward (self : layer)
    (inputs : ndarray T * ndarray T * ndarray Z)
  : layer * res (ndarray T) :=
  let '(vec_e, vec_d, mask_e) := inputs in
  if negb (_mode self =? "predict")%string
     || shape_is_empty (shape (state self)) then
    match reshape (state self) [1] with
    | Ok s => (set_state self s, _ConcatWithPadding vec_e vec_d mask_e)
    | Raise e => (self, Raise e)
    end
  else (self, Ok vec_d).

End Layer.
End ConcatWithPadding.

Module StripFromConcatenateWithPadding.
Section Layer.
Variable T : Type.

Definition _UpdateRow (L2 H : nat) (x : ndarray T * ndarray Z * ndarray Z)
  : res (ndarray T) :=
  let '(row_ed, row_e, _) := x in
  let mask_e := not_equal_zero row_e in
  let len_e := sum_int32 mask_e in
  let zero_idx := 0%Z in
  dynamic_slice row_ed (len_e, zero_idx) (L2, H).

Definition _StripFromConcatenateWithPadding
    (vec_ed : ndarray T) (tok_e tok_d : ndarray Z) : res (ndarray T) :=
  '(B, L, H) <- unpack3 (shape vec_ed) ;;
  L1 <- index (shape tok_e) 1 ;;
  L2 <- index (shape tok_d) 1 ;;
  check (L =? L1 + L2) else_raise ValueError (LengthMismatch L L1 L2) ;;
  check shape_eqb (shape tok_e) [B; L1]
    else_raise ValueError (EncoderTokensShape (shape tok_e) [B; L1]) ;;
  check shape_eqb (shape tok_d) [B; L2]
    else_raise ValueError (DecoderTokensShape (shape tok_d) [B; L2]) ;;
  lax_map3 (_UpdateRow L2 H) (vec_ed, tok_e, tok_d).

Definition init_weights_and_state (self : layer) : layer :=
  set_state self (NDArray [] [0%Z]).

Definition forward (self : layer)
    (inputs : ndarray T * ndarray Z * ndarray Z)
  : layer * res (ndarray T) :=
  let '(vec_ed, tok_e, tok_d) := inputs in
  if negb (_mode self =? "predict")%string
     || shape_is_empty (shape (state self)) then
    match reshape (state self) [1] with
    | Ok s =>
        (set_state self s, _StripFromConcatenateWithPadding vec_ed tok_e tok_d)
    | Raise e => (self, Raise e)
    end
  else (self, Ok vec_ed).

End Layer.
End StripFromConcatenateWithPadding.

(** A sequence of [forward] calls on one instance: the instance is threaded
    through the calls and the outcomes are collected in order. *)
Fixpoint run {I O : Type} (forward : layer -> I -> layer * res O)
    (self : layer) (calls : list I) : layer * list (res O) :=
  match calls with
  | [] => (self, [])
  | x :: rest =>
      let '(self1, out) := forward self x in
      let '(self2, outs) := run forward self1 rest in
      (self2, out :: outs)
  end.

(** ** Python's floats *)

(** A Python float is a binary64 number.  The finite ones are the rationals
    [m * 2^e] with [|m| < 2^53] and [-1074 <= e <= 971]; they are kept here
    as rationals in lowest terms.  The sign of a zero is not kept: the code
    below only compares a float with [0]. *)
Module Binary64.

Definition prec : Z := 53.
Definition emin : Z := -1074.
Definition emax : Z := 1024.

(** [floor (log2 q)] for a positive [q]. *)
Definition ilog2 (q : Q) : Z :=
  let k := (Z.log2 (Qnum q) - Z.log2 (Zpos (Qden q)))%Z in
  if Qle_bool (2 ^ k) q then k else (k - 1)%Z.

(** The exponent of the unit in the last place of [q]: [prec - 1] below
    the leading bit, and never below that of the subnormal numbers. *)
Definition ulp_exponent (q : Q) : Z :=
  Z.max (ilog2 (Qabs q) - (prec - 1)) emin.

(** The nearest integer, the even one of the two in a tie. *)
Definition nearest_even (x : Q) : Z :=
  let f := Qfloor x in
  match (x - inject_Z f ?= 1 # 2)%Q with
  | Lt => f
  | Eq => if Z.even f then f else (f + 1)%Z
  | Gt => (f + 1)%Z
  end.

(** Rounding to the nearest float, ties to even, as the conversion of an int
    and the division of two ints do it; both raise [OverflowError] when the
    rounded value reaches [2^1024]. *)
Definition round (q : Q) : res Q :=
  if Qeq_bool q 0 then Ok 0%Q
  else
    let e := ulp_exponent q in
    let r := (inject_Z (nearest_even (q / 2 ^ e)) * 2 ^ e)%Q in
    if Qle_bool (2 ^ emax) (Qabs r) then Raise OverflowError else Ok (Qred r).

(** The integer part, rounding towards zero. *)
Definition truncate (x : Q) : Z :=
  if Qle_bool 0 x then Qfloor x else Qceiling x.

(** C's [fmod]: the remainder of the division truncated towards zero.  It
    is a float whenever [x] and [y] are, so nothing is rounded. *)
Definition fmod (x y : Q) : Q := (x - y * inject_Z (truncate (x / y)))%Q.

Definition negative (x : Q) : bool := (Qnum x <? 0)%Z.

(** The ints that are floats together with all smaller ones: those of up
    to 2^53 in absolute value. *)
Definition exact_int (z : Z) : Prop := (Z.abs z <= 2 ^ prec)%Z.

End Binary64.

(** ** terraformer.py *)

Module Terraformer.

(** *** The recursive builder of reversible stacks *)

Section Forget.
Variable block : Type.
Variable dim : Type.

(** The combinators of the layer library that [_ReversibleSerialForget]
    assembles.  [block] is the type of the layers handed to it, [dim] the
    type of the width given to [tl.Dense]. *)
Inductive combinator : Type :=
| ReversibleSerial (layers : list block)
| Serial (sublayers : list combinator)
| XYAvg
| Dense (d_model : dim)
| Dup
| Select (indices : list nat).

Definition forgetting_layer (d_model : dim) (forget_dense : bool) : combinator :=
  if forget_dense then Serial [XYAvg; Dense d_model; Dup]
  else Select [0; 1].

(** [n_layers] is a count or [None]; Python's [not n_layers] holds for [None]
    and for [0].  [layers[:n]] and [layers[n:]] are [firstn] and [skipn]. *)
Equations? _ReversibleSerialForget (layers : list block) (d_model : dim)
    (n_layers : option nat) (forget_dense : bool) : combinator
    by wf (length layers) lt :=
_ReversibleSerialForget layers d_model None forget_dense :=
  ReversibleSerial layers;
_ReversibleSerialForget layers d_model (Some 0) forget_dense :=
  ReversibleSerial layers;
_ReversibleSerialForget layers d_model (Some (S k)) forget_dense
  with le_lt_dec (length layers) (S k + 1) := {
  | left _ => ReversibleSerial layers
  | right _ =>
      Serial [ReversibleSerial (firstn (S k) layers);
              forgetting_layer d_model forget_dense;
              _ReversibleSerialForget (skipn (S k) layers) d_model
                                      (Some (S k)) forget_dense] }.
Proof.
  destruct layers as [|b layers]; simpl in *; [lia|].
  rewrite length_skipn. lia.
Qed.

(** The forgetting blocks of a stack, counted through nested [Serial]s. *)
Fixpoint forgetting_blocks (c : combinator) : nat :=
  match c with
  | ReversibleSerial _ => 0
  | Serial cs =>
      (fix go (l : list combinator) : nat :=
         match l with
         | [] => 0
         | x :: r => forgetting_blocks x + go r
         end) cs
  | XYAvg => 1
  | Dense _ => 0
  | Dup => 0
  | Select _ => 1
  end.

(** The groups of layers run reversibly, in order. *)
Fixpoint reversible_groups (c : combinator) : list (list block) :=
  match c with
  | ReversibleSerial ls => [ls]
  | Serial cs =>
      (fix go (l : list combinator) : list (list block) :=
         match l with
         | [] => []
         | x :: r => reversible_groups x ++ go r
         end) cs
  | _ => []
  end.

End Forget.

(** *** The guard against padding in predict mode *)

Section Guard.
Variables prec emax : Z.

(** [x / c], elementwise, in the binary floating-point format given by
    [prec] and [emax]. *)
Definition divide (x : ndarray spec_float) (c : spec_float)
  : ndarray spec_float :=
  NDArray (shape x) (map (fun v => SFdiv prec emax v c) (data x)).

(** The float literal [0.]. *)
Definition float_zero : spec_float := S754_zero false.

Definition _convert_to_nans (x : ndarray spec_float) (y : ndarray Z)
  : ndarray spec_float * ndarray Z :=
  (where_ (all y) x (divide x float_zero), y).

Definition _ConvertToNaNsOnAnyZero := _convert_to_nans.

(** The entry of the model's layer list (terraformer.py, line 306):
    the guard in predict mode, nothing otherwise. *)
Definition predict_guard (mode : string)
    (x : ndarray spec_float) (y : ndarray Z)
  : ndarray spec_float * ndarray Z :=
  if (mode =? "predict")%string then _ConvertToNaNsOnAnyZero x y else (x, y).

Definition is_nan (v : spec_float) : bool :=
  match v with S754_nan => true | _ => false end.

End Guard.

(** *** Validation of the head count *)

(** Python's [a / b] on two ints is true division: the quotient rounded to
    the nearest float, [OverflowError] when it is too large for one. *)
Definition truediv (a b : Z) : res Q :=
  if (b =? 0)%Z then Raise ZeroDivisionError
  else Binary64.round (inject_Z a / inject_Z b).

(** An int operand of a float operation is converted to a float first. *)
Definition float (n : Z) : res Q := Binary64.round (inject_Z n).

(** Python's [x % n] for a float [x] and an int [n]: [n] is converted, a
    zero [n] raises, and the remainder of [fmod], when it is not zero and
    has the other sign, is moved to the sign of [n] by adding [n].  That
    sum is a float addition; its operands have opposite signs, so it cannot
    overflow. *)
Definition float_mod (x : Q) (n : Z) : res Q :=
  wx <- float n ;;
  check negb (Qeq_bool wx 0) else_raise ZeroDivisionError ;;
  let m := Binary64.fmod x wx in
  if Qeq_bool m 0 then Ok 0%Q
  else if xorb (Binary64.negative wx) (Binary64.negative m)
       then Binary64.round (m + wx)
       else Ok m.

(** Python's [a // b] on two ints. *)
Definition floordiv (a b : Z) : res Z :=
  if (b =? 0)%Z then Raise ZeroDivisionError else Ok (a / b)%Z.

Definition default_to (o : option Z) (d : res Z) : res Z :=
  match o with
  | Some v => Ok v
  | None => d
  end.

(** The opening statements of [ConfigurableTerraformer] (terraformer.py,
    lines 132-138): the head-count check, then the default sizes of the
    attention keys and values.  They run before any layer is built; the
    result is the pair [(d_attention_key, d_attention_value)].  The message
    of the error holds [n_heads] and the float [d_model/2], which its
    f-string computes once more. *)
Definition ConfigurableTerraformer
    (d_model : Z) (d_attention_key d_attention_value : option Z)
    (n_heads : Z) : res (Z * Z) :=
  half <- truediv d_model 2 ;;
  r <- float_mod half n_heads ;;
  check Qeq_bool r 0%Q else_raise ValueError (HeadsMustDivide n_heads half) ;;
  k <- default_to d_attention_key (floordiv d_model n_heads) ;;
  v <- default_to d_attention_value (floordiv d_model n_heads) ;;
  Ok (k, v).


(** [d_model/2] as the specification reads it: the exact half. *)
Definition half (d_model : Z) : Q := (inject_Z d_model / inject_Z 2)%Q.

End Terraformer.

(** ** Concrete inputs *)

Module Examples.

(** A layer in train mode and one in predict mode, after
    [init_weights_and_state]. *)
Definition train_layer : layer :=
  ConcatWithPadding.init_weights_and_state (Layer "train" (NDArray [] [])).

Definition predict_layer : layer :=
  ConcatWithPadding.init_weights_and_state (Layer "predict" (NDArray [] [])).

(** One row: three encoder vectors of width one, of which the first is a
    real token and the other two are padding; one decoder vector. *)
Definition vec_e : ndarray Z := NDArray [1; 3; 1] [5; 7; 8]%Z.
Definition vec_d : ndarray Z := NDArray [1; 1; 1] [9]%Z.
Definition tok_e : ndarray Z := NDArray [1; 3] [4; 0; 0]%Z.
Definition tok_d : ndarray Z := NDArray [1; 1] [6]%Z.
Definition mask_e : ndarray Z := EncoderMask tok_e.

(** A merged array whose length 5 is not the sum 3 + 1 of the token
    lengths. *)
Definition vec_ed_too_long : ndarray Z := NDArray [1; 5; 1] [5; 9; 8; 0; 0]%Z.

(** A decoder vector and encoder token ids with a single axis. *)
Definition vec_d_flat : ndarray Z := NDArray [1] [9]%Z.
Definition tok_e_flat : ndarray Z := NDArray [3] [4; 0; 0]%Z.

(** The float 1.0 in binary32 ([prec = 24], [emax = 128]), an embedding
    holding it, and a mask with its single entry zero. *)
Definition float_one : spec_float := S754_finite false 8388608 (-23).
Definition embedding : ndarray spec_float := NDArray [1; 1; 1] [float_one].
Definition mask_padded : ndarray Z := NDArray [1; 1] [0%Z].

End Examples.

(** ** Further functions of the two files *)

(** *** terraformer.py: reshaping helpers *)

Module Axes.

(** The outcome of [jnp.squeeze]: the array, or one of its two
    [ValueError]s, an axis that the array does not have or an axis whose
    size is not one.  They are kept apart from [Py.exn], whose messages are
    those raised by the two model files themselves. *)
Inductive squeezed (A : Type) : Type :=
| Squeezed (a : ndarray A)
| AxisOutOfBounds (axis rank : nat)
| NotSizeOne (shape : list nat) (axes : list nat).
Arguments Squeezed {A} a.
Arguments AxisOutOfBounds {A} axis rank.
Arguments NotSizeOne {A} shape axes.

(** [jnp.squeeze(x, (1, 2))]. *)
Definition squeeze12 {A : Type} (x : ndarray A) : squeezed A :=
  match shape x with
  | b :: d1 :: d2 :: rest =>
      if (d1 =? 1) && (d2 =? 1) then Squeezed (NDArray (b :: rest) (data x))
      else NotSizeOne (shape x) [1; 2]
  | [_; _] => AxisOutOfBounds 2 2
  | s => AxisOutOfBounds 1 (length s)
  end.

(** [lambda x: jnp.reshape(x, (x.shape[0], 1, 1, x.shape[1]))]. *)
Definition _InsertAxes12 {A : Type} (x : ndarray A) : res (ndarray A) :=
  b <- index (shape x) 0 ;;
  l <- index (shape x) 1 ;;
  reshape x [b; 1; 1; l].

(** [lambda x: jnp.squeeze(x, (1, 2))]. *)
Definition _RemoveAxes12 {A : Type} (x : ndarray A) : squeezed A :=
  squeeze12 x.

(** [lambda x: x.astype(jnp.int32)], on an array of integers. *)
Definition _AsTokenIDs (x : ndarray Z) : ndarray Z :=
  NDArray (shape x) (map int32 (data x)).

End Axes.

(** *** terraformer.py: the sizes of the decoder blocks *)

Module Decoder.

(** The two ways in which the set-up of the decoder blocks fails: the
    [assert] on the number of attention types, and the modulo inside it when
    the list of types is empty. *)
Inductive failure : Type :=
| AssertionError
| ModuloByZero.

Inductive built (A : Type) : Type :=
| Built (a : A)
| Failed (e : failure).
Arguments Built {A} a.
Arguments Failed {A} e.

(** [d_model], [d_ff], [d_attention_key] and [d_attention_value].  The
    caller gives ints; halving is Python's true division and gives floats,
    so the sizes are rationals. *)
Record sizes : Type :=
  Sizes { d_model : Q; d_ff : Q; d_attention_key : Q; d_attention_value : Q }.

Definition of_ints (d_model d_ff d_attention_key d_attention_value : Z)
  : sizes :=
  Sizes (inject_Z d_model) (inject_Z d_ff)
        (inject_Z d_attention_key) (inject_Z d_attention_value).

(** Lines 144-146 in Python's arithmetic: four true divisions of an int
    by 2, each rounded to a float, in the order of the source. *)
Definition halved_floats
    (d_model d_ff d_attention_key d_attention_value : Z) : res sizes :=
  m <- Terraformer.truediv d_model 2 ;;
  f <- Terraformer.truediv d_ff 2 ;;
  k <- Terraformer.truediv d_attention_key 2 ;;
  v <- Terraformer.truediv d_attention_value 2 ;;
  Ok (Sizes m f k v).

(** The same halving without rounding.  It is what [halved_floats] returns
    for ints of up to 2^53 in absolute value, and the one that the list of
    decoder blocks is built from below. *)
Definition halved (s : sizes) : sizes :=
  Sizes (d_model s / 2) (d_ff s / 2)
        (d_attention_key s / 2) (d_attention_value s / 2).

(** Lines 152-154: doubling an int is exact. *)
Definition doubled (s : sizes) : sizes :=
  Sizes (d_model s * 2) (d_ff s * 2)
        (d_attention_key s * 2) (d_attention_value s * 2).

(** Sizes that are equal as numbers. *)
Definition same_sizes (s t : sizes) : Prop :=
  (d_model s == d_model t)%Q /\ (d_ff s == d_ff t)%Q
  /\ (d_attention_key s == d_attention_key t)%Q
  /\ (d_attention_value s == d_attention_value t)%Q.

(** [if knob:] for a knob that is an int or [None]. *)
Definition truthy (knob : option Z) : bool :=
  match knob with
  | Some z => negb (z =? 0)%Z
  | None => false
  end.

(** [knob and test(knob)]. *)
Definition knob_and (knob : option Z) (test : Z -> bool) : bool :=
  match knob with
  | Some z => negb (z =? 0)%Z && test z
  | None => false
  end.

(** The sizes of the first stage (terraformer.py, lines 141-146) and of the
    final stage (lines 149-154). *)
Definition first_stage (s : sizes) (half_before_layer : option Z) : sizes :=
  if truthy half_before_layer then halved s else s.

Definition final_stage (s : sizes) (double_after_layer : option Z) : sizes :=
  if truthy double_after_layer then doubled s else s.

Section Blocks.
Variable attention : Type.

(** The entries of the list [decoder_blocks]. *)
Inductive entry : Type :=
| DecoderBlock (d_m d_f d_k d_v : Q) (n_heads : Z) (attention_type : attention)
| ReversibleConcatenatePair.

(** Lines 214-217: a tuple or list of attention types must have a length
    that divides the number of decoder layers; a single type becomes a list
    of one. *)
Definition attention_types (encoder_decoder_attention_type :
                              attention + list attention)
    (n_decoder_layers : nat) : built (attention * list attention) :=
  match encoder_decoder_attention_type with
  | inl a => Built (a, [a])
  | inr [] => Failed ModuloByZero
  | inr (a :: rest) =>
      if n_decoder_layers mod length (a :: rest) =? 0
      then Built (a, a :: rest)
      else Failed AssertionError
  end.

(** The sizes chosen for the block of index [layer_idx] (lines 222-226). *)
Definition layer_sizes (s : sizes)
    (half_before_layer double_after_layer : option Z) (layer_idx : Z)
  : sizes :=
  let chosen := first_stage s half_before_layer in
  let chosen :=
    if knob_and half_before_layer (fun h => (h <=? layer_idx)%Z)
    then s else chosen in
  if knob_and double_after_layer (fun d => (d <? layer_idx)%Z)
  then final_stage s double_after_layer else chosen.

(** What one turn of the loop appends (lines 218-245). *)
Definition appended (s : sizes) (n_heads : Z)
    (first_type : attention) (types : list attention)
    (half_before_layer double_after_layer : option Z) (layer_idx : nat)
  : list entry :=
  let layer_attention_type :=
    nth (layer_idx mod length types) types first_type in
  let chosen :=
    layer_sizes s half_before_layer double_after_layer (Z.of_nat layer_idx) in
  DecoderBlock (d_model chosen) (d_ff chosen)
    (d_attention_key chosen) (d_attention_value chosen)
    n_heads layer_attention_type
  :: (if knob_and half_before_layer
           (fun h => (Z.of_nat layer_idx =? h - 1)%Z)
      then [ReversibleConcatenatePair] else [])
  ++ (if knob_and double_after_layer
           (fun d => (Z.of_nat layer_idx =? d)%Z)
      then [ReversibleConcatenatePair] else []).

(** The list [decoder_blocks] of [ConfigurableTerraformer]. *)
Definition decoder_blocks (s : sizes) (n_heads : Z)
    (n_decoder_layers : nat)
    (encoder_decoder_attention_type : attention + list attention)
    (half_before_layer double_after_layer : option Z)
  : built (list entry) :=
  match attention_types encoder_decoder_attention_type n_decoder_layers with
  | Built (first_type, types) =>
      Built (flat_map
               (appended s n_heads first_type types
                  half_before_layer double_after_layer)
               (seq 0 n_decoder_layers))
  | Failed e => Failed e
  end.

(** Whether a stream of width [w] passes through the entries and leaves
    with width [final]: a decoder block takes and gives its own [d_m], and
    [ReversibleConcatenatePair] concatenates the two streams into each, which
    doubles the width. *)
Fixpoint widths_agree (w : Q) (entries : list entry) (final : Q) : bool :=
  match entries with
  | [] => Qeq_bool w final
  | DecoderBlock d_m _ _ _ _ _ :: rest =>
      Qeq_bool d_m w && widths_agree w rest final
  | ReversibleConcatenatePair :: rest => widths_agree (w * 2) rest final
  end.

(** The attention types of the decoder blocks, in order. *)
Fixpoint attention_of (entries : list entry) : list attention :=
  match entries with
  | [] => []
  | DecoderBlock _ _ _ _ _ a :: rest => a :: attention_of rest
  | ReversibleConcatenatePair :: rest => attention_of rest
  end.

End Blocks.

(** The width that the stream should have in front of the block of index
    [i] for all widths to agree: half of [d_model] before the layer named
    by [half_before_layer], twice as much after the layer named by
    [double_after_layer]. *)
Definition expected_width (s : sizes) (h d : option Z) (i : nat) : Q :=
  (if knob_and h (fun hv => (Z.of_nat i <? hv)%Z)
   then d_model s / 2 else d_model s)
  * (if knob_and d (fun dv => (dv <? Z.of_nat i)%Z) then 2 else 1).

(** The width that the stream has in front of the block of index [i]: the
    width of the first stage, doubled by each pair appended so far. *)
Definition running_width (s : sizes) (h d : option Z) (i : nat) : Q :=
  d_model (first_stage s h)
  * (if knob_and h (fun hv => (1 <=? hv)%Z && (hv <=? Z.of_nat i)%Z)
     then 2 else 1)
  * (if knob_and d (fun dv => (0 <=? dv)%Z && (dv <? Z.of_nat i)%Z)
     then 2 else 1).

(** The setting of the two knobs under which the widths agree: each knob
    that is set names a layer of the decoder, and halving ends no later than
    the layer after which doubling starts. *)
Definition knobs_fit (n_decoder_layers : nat)
    (half_before_layer double_after_layer : option Z) : Prop :=
  (forall h, half_before_layer = Some h -> h <> 0%Z ->
             (1 <= h <= Z.of_nat n_decoder_layers)%Z)
  /\ (forall d, double_after_layer = Some d -> d <> 0%Z ->
                (1 <= d < Z.of_nat n_decoder_layers)%Z)
  /\ (forall h d, half_before_layer = Some h -> double_after_layer = Some d ->
                  h <> 0%Z -> d <> 0%Z -> (h <= d + 1)%Z).

End Decoder.

(** *** The two layers in sequence *)

(** A sequence of calls on a state of any type. *)
Fixpoint run_session {S I O : Type} (step : S -> I -> S * res O)
    (st : S) (calls : list I) : S * list (res O) :=
  match calls with
  | [] => (st, [])
  | x :: rest =>
      let '(st1, out) := step st x in
      let '(st2, outs) := run_session step st1 rest in
      (st2, out :: outs)
  end.

Section Sequence.
Variable T : Type.
Variable zero : T.

(** [ConcatWithPadding] followed by [StripFromConcatenateWithPadding], as the
    models chain them, with nothing in between: the merged array goes from
    one to the other, and each layer keeps its own state. *)
Definition concat_then_strip (layers : layer * layer)
    (x : ndarray T * ndarray T * ndarray Z * ndarray Z * ndarray Z)
  : (layer * layer) * res (ndarray T) :=
  let '(vec_e, vec_d, mask_e, tok_e, tok_d) := x in
  let '(concat_layer, strip_layer) := layers in
  let '(concat_layer1, merged) :=
    ConcatWithPadding.forward zero concat_layer (vec_e, vec_d, mask_e) in
  match merged with
  | Ok vec_ed =>
      let '(strip_layer1, out) :=
        StripFromConcatenateWithPadding.forward strip_layer
          (vec_ed, tok_e, tok_d) in
      ((concat_layer1, strip_layer1), out)
  | Raise e => ((concat_layer1, strip_layer), Raise e)
  end.

End Sequence.

(** *** More concrete inputs *)

Module Examples2.

Definition decoder_sizes : Decoder.sizes := Decoder.Sizes 512 2048 64 64.

(** Two rows of two encoder vectors of width two, one decoder vector per
    row, and an integer mask. *)
Definition vec_e : ndarray Z := NDArray [2; 2; 2] [1; 2; 3; 4; 5; 6; 7; 8]%Z.
Definition vec_d : ndarray Z := NDArray [2; 1; 2] [10; 11; 12; 13]%Z.
Definition mask_e : ndarray Z := NDArray [2; 2] [1; 0; 1; 1]%Z.
Definition tok_d : ndarray Z := NDArray [2; 1] [3; 3]%Z.
Definition mask_ones : ndarray Z := NDArray [2; 2] [1; 1; 1; 1]%Z.
Definition no_decoder : ndarray Z := NDArray [2; 0; 2] [].

End Examples2.

(** * Properties *)

(** ** Buffers cut into blocks *)

Section Blocks.
Context {A : Type}.
Implicit Types (l a b : list A) (bs : list (list A)) (h n p : nat).

Lemma length_block h l p :
  (p + 1) * h <= length l -> length (block h l p) = h.
Proof.
  intros Hl. unfold block.
  rewrite length_firstn, length_skipn. nia.
Qed.

Lemma block_zero_width l p : block 0 l p = [].
Proof. reflexivity. Qed.

Lemma block_app_l h a b n p :
  length a = n * h -> p < n -> block h (a ++ b) p = block h a p.
Proof.
  intros Ha Hp. unfold block.
  rewrite skipn_app, firstn_app, length_skipn.
  replace (h - (length a - p * h)) with 0 by nia.
  rewrite firstn_O, app_nil_r. reflexivity.
Qed.

Lemma block_app_r h a b n p :
  length a = n * h -> n <= p -> block h (a ++ b) p = block h b (p - n).
Proof.
  intros Ha Hp. unfold block.
  rewrite skipn_app, skipn_all2 by nia.
  replace (p * h - length a) with ((p - n) * h) by nia.
  reflexivity.
Qed.

Lemma block_repeat h n p (z : A) :
  p < n -> block h (repeat z (n * h)) p = repeat z h.
Proof.
  intros Hp.
  replace (n * h) with (p * h + (h + (n - p - 1) * h)) by nia.
  rewrite !repeat_app.
  rewrite (@block_app_r h _ _ p p) by (rewrite ?repeat_length; lia).
  rewrite Nat.sub_diag. unfold block. simpl skipn.
  rewrite firstn_app, repeat_length, Nat.sub_diag, firstn_O, app_nil_r.
  apply firstn_all2. rewrite repeat_length. lia.
Qed.

Lemma block_concat h bs p :
  Forall (fun b => length b = h) bs ->
  p < length bs -> block h (concat bs) p = nth p bs [].
Proof.
  intros Hall. revert p.
  induction Hall as [|b bs Hb Hall IH]; intros p Hp; simpl in Hp; [lia|].
  cbv beta in Hb.
  destruct p as [|p]; simpl concat.
  - unfold block. simpl skipn.
    rewrite firstn_app, Hb, Nat.sub_diag, firstn_O, app_nil_r.
    apply firstn_all2. simpl. lia.
  - rewrite (@block_app_r h b (concat bs) 1 (S p)) by lia.
    simpl. rewrite Nat.sub_0_r. apply IH. lia.
Qed.

Lemma block_concat_map h n p (f : nat -> list A) :
  (forall r, r < n -> length (f r) = h) ->
  p < n -> block h (concat (map f (seq 0 n))) p = f p.
Proof.
  intros Hf Hp.
  rewrite block_concat.
  - rewrite (nth_indep _ [] (f 0)) by (rewrite length_map, length_seq; exact Hp).
    rewrite map_nth, seq_nth by exact Hp. reflexivity.
  - apply Forall_forall. intros b Hb.
    apply in_map_iff in Hb. destruct Hb as [r [<- Hr]].
    apply in_seq in Hr. apply Hf. lia.
  - rewrite length_map, length_seq. exact Hp.
Qed.

Lemma length_concat_map h n (f : nat -> list A) :
  (forall r, r < n -> length (f r) = h) ->
  length (concat (map f (seq 0 n))) = n * h.
Proof.
  intros Hf.
  assert (G : forall k, (forall r, k <= r < k + n -> length (f r) = h) ->
                        length (concat (map f (seq k n))) = n * h).
  { clear Hf. induction n as [|n IH]; intros k Hk; [reflexivity|].
    simpl. rewrite length_app, Hk, IH by (try intros; try apply Hk; lia).
    reflexivity. }
  apply G. intros r Hr. apply Hf. lia.
Qed.

Lemma block_succ h l p : block h l (S p) = block h (skipn h l) p.
Proof.
  unfold block. rewrite skipn_skipn.
  replace (S p * h) with (p * h + h) by lia. reflexivity.
Qed.

Lemma concat_blocks h n l :
  length l = n * h -> concat (map (block h l) (seq 0 n)) = l.
Proof.
  revert l. induction n as [|n IH]; intros l Hl.
  - destruct l; [reflexivity|discriminate].
  - change (seq 0 (S n)) with (0 :: seq 1 n).
    rewrite <- seq_shift. cbn [map concat]. rewrite map_map.
    rewrite (map_ext _ (block h (skipn h l)) (block_succ h l)).
    rewrite IH by (rewrite length_skipn; simpl in Hl; lia).
    unfold block. simpl. apply firstn_skipn.
Qed.

End Blocks.

Lemma mapM_ok {A B : Type} (f : A -> res B) (g : A -> B) (l : list A) :
  (forall x, In x l -> f x = Ok (g x)) -> mapM f l = Ok (map g l).
Proof.
  induction l as [|x l IH]; intros H; [reflexivity|].
  simpl. rewrite H by (left; reflexivity). simpl.
  rewrite IH by (intros y Hy; apply H; right; exact Hy). reflexivity.
Qed.

(** ** Array primitives *)

Lemma size_of_1 (h : nat) : size_of [h] = h.
Proof. simpl. lia. Qed.

Lemma size_of_2 (n h : nat) : size_of [n; h] = n * h.
Proof. simpl. lia. Qed.

Lemma size_of_3 (b n h : nat) : size_of [b; n; h] = b * (n * h).
Proof. simpl. lia. Qed.

Lemma shape_eqb_refl (s : list nat) : shape_eqb s s = true.
Proof. unfold shape_eqb. destruct (list_eq_dec Nat.eq_dec s s); congruence. Qed.

Lemma shape_eqb_eq (s t : list nat) : shape_eqb s t = true <-> s = t.
Proof.
  unfold shape_eqb. destruct (list_eq_dec Nat.eq_dec s t); split; congruence.
Qed.

Lemma shape_eqb_neq (s t : list nat) : shape_eqb s t = false <-> s <> t.
Proof.
  unfold shape_eqb. destruct (list_eq_dec Nat.eq_dec s t); split; congruence.
Qed.

Lemma start_index_zero_full (h : nat) : start_index 0 h h = 0.
Proof. unfold start_index. simpl. rewrite Z.sub_diag. reflexivity. Qed.

Lemma start_index_le (i : Z) (dim size : nat) :
  size <= dim -> start_index i dim size + size <= dim.
Proof. intros H. unfold start_index. destruct (i <? 0)%Z; lia. Qed.

Lemma start_index_in_range (i : Z) (dim size : nat) :
  (0 <= i <= Z.of_nat dim - Z.of_nat size)%Z ->
  start_index i dim size = Z.to_nat i.
Proof.
  intros H. unfold start_index.
  destruct (Z.ltb_spec i 0); lia.
Qed.

Lemma int32_small (z : Z) : (0 <= z < 2 ^ 31)%Z -> int32 z = z.
Proof.
  intros H. unfold int32.
  rewrite Z.mod_small; lia.
Qed.

Lemma ndarray_eta {A : Type} (a : ndarray A) : NDArray (shape a) (data a) = a.
Proof. destruct a. reflexivity. Qed.

Lemma lax_map3_ok {A B C D : Type}
    (f : ndarray A * ndarray B * ndarray C -> res (ndarray D))
    (a : ndarray A) (b : ndarray B) (c : ndarray C)
    (n : nat) (sa sb sc : list nat) (g : nat -> ndarray D) :
  shape a = n :: sa -> shape b = n :: sb -> shape c = n :: sc ->
  (forall i, f (item a i, item b i, item c i) = Ok (g i)) ->
  lax_map3 f (a, b, c)
  = Ok (NDArray (n :: shape (g 0))
          (concat (map (fun i => data (g i)) (seq 0 n)))).
Proof.
  intros Ha Hb Hc Hf. unfold lax_map3.
  rewrite Ha, Hb, Hc, Nat.eqb_refl. cbn [andb].
  rewrite Hf. cbn [bind].
  rewrite (mapM_ok _ g) by (intros; apply Hf). cbn [bind].
  rewrite map_map. reflexivity.
Qed.

(** The items of a stack of equally long rows are the rows. *)
Lemma item_stack {D : Type} (n : nat) (s : list nat) (f : nat -> list D)
    (i : nat) :
  (forall r, r < n -> length (f r) = size_of s) ->
  i < n ->
  item (NDArray (n :: s) (concat (map f (seq 0 n)))) i = NDArray s (f i).
Proof.
  intros Hlen Hi. unfold item. cbn [shape data tl].
  rewrite (block_concat_map f Hlen Hi). reflexivity.
Qed.

Lemma length_item_data {D : Type} (a : ndarray D) (n : nat) (s : list nat)
    (i : nat) :
  well_formed a -> shape a = n :: s -> i < n ->
  length (data (item a i)) = size_of s.
Proof.
  intros Hwf Hs Hi. unfold item. rewrite Hs. cbn [tl data].
  apply length_block. rewrite Hwf, Hs.
  change (size_of (n :: s)) with (n * size_of s).
  apply Nat.mul_le_mono_r. lia.
Qed.

Lemma item_item {D : Type} (a : ndarray D) (B L H b p : nat) :
  shape a = [B; L; H] ->
  item (item a b) p = NDArray [H] (block H (data (item a b)) p).
Proof.
  intros Hs.
  assert (Hrow : shape (item a b) = [L; H])
    by (unfold item; cbn [shape]; rewrite Hs; reflexivity).
  change (item (item a b) p)
    with (NDArray (tl (shape (item a b)))
            (block (size_of (tl (shape (item a b)))) (data (item a b)) p)).
  rewrite Hrow. cbn [tl]. rewrite size_of_1. reflexivity.
Qed.

(** ** ConcatWithPadding *)

Section ConcatProofs.
Variable T : Type.
Variable zero : T.
Import ConcatWithPadding.

(** One row of the result: the zero-extended encoder row, updated with the
    decoder row at the clamped index. *)
Lemma UpdateRow_eq (row_e row_d : ndarray T) (row_mask_e : ndarray Z)
    (L1 L2 H : nat) :
  shape row_e = [L1; H] -> shape row_d = [L2; H] ->
  _UpdateRow zero (row_e, row_d, row_mask_e)
  = Ok (NDArray [L1 + L2; H]
          (concat
             (map (update_block H H
                     (start_index (sum_int32 row_mask_e) (L1 + L2) L2) 0 L2
                     (data row_e ++ repeat zero (size_of [L2; H]))
                     (data row_d))
                  (seq 0 (L1 + L2))))).
Proof.
  intros He Hd. unfold _UpdateRow, concatenate0, zeros_like.
  cbn [shape data]. rewrite He, Hd, shape_eqb_refl. cbn [bind].
  unfold dynamic_update_slice. cbn [shape data fst snd]. rewrite Hd.
  replace ((L2 <=? L1 + L2) && (H <=? H)) with true
    by (symmetry; apply andb_true_intro; split; apply Nat.leb_le; lia).
  rewrite start_index_zero_full. reflexivity.
Qed.

Lemma length_update_block (de dd : list T) (si L1 L2 H r : nat) :
  length de = L1 * H -> length dd = L2 * H -> si <= L1 -> r < L1 + L2 ->
  length (update_block H H si 0 L2 (de ++ repeat zero (size_of [L2; H])) dd r)
  = H.
Proof.
  intros Hde Hdd Hsi Hr. unfold update_block. cbv zeta.
  assert (Hold : length (block H (de ++ repeat zero (size_of [L2; H])) r) = H).
  { apply length_block.
    rewrite length_app, repeat_length, size_of_2. nia. }
  destruct ((si <=? r) && (r <? si + L2)) eqn:Ein; [|exact Hold].
  apply andb_prop in Ein. destruct Ein as [E1 E2].
  apply Nat.leb_le in E1. apply Nat.ltb_lt in E2.
  rewrite !length_app, firstn_O, skipn_all2 by (rewrite Hold; lia).
  rewrite length_block by nia. simpl. lia.
Qed.

(** The block at position [p] of a row of the result is a decoder vector
    inside the window that starts at [si], and a block of the zero-extended
    encoder row elsewhere. *)
Lemma UpdateRow_block (de dd : list T) (si L1 L2 H p : nat) :
  length de = L1 * H -> length dd = L2 * H -> si <= L1 -> p < L1 + L2 ->
  block H
    (concat
       (map (update_block H H si 0 L2
               (de ++ repeat zero (size_of [L2; H])) dd)
            (seq 0 (L1 + L2)))) p
  = if (si <=? p) && (p <? si + L2) then block H dd (p - si)
    else if p <? L1 then block H de p
         else repeat zero H.
Proof.
  intros Hde Hdd Hsi Hp.
  rewrite block_concat_map with (h := H);
    [|intros r Hr; apply length_update_block with (L1 := L1); assumption|exact Hp].
  unfold update_block. cbv zeta.
  destruct ((si <=? p) && (p <? si + L2)) eqn:Ein.
  - assert (Hold : length (block H (de ++ repeat zero (size_of [L2; H])) p) = H).
    { apply length_block.
      rewrite length_app, repeat_length, size_of_2. nia. }
    rewrite firstn_O, skipn_all2 by (rewrite Hold; lia).
    rewrite app_nil_r. reflexivity.
  - destruct (Nat.ltb_spec p L1) as [Hlt|Hge].
    + apply block_app_l with (n := L1); assumption.
    + rewrite block_app_r with (n := L1) by assumption.
      rewrite size_of_2. apply block_repeat. lia.
Qed.

Lemma UpdateRow_length (de dd : list T) (si L1 L2 H : nat) :
  length de = L1 * H -> length dd = L2 * H -> si <= L1 ->
  length
    (concat
       (map (update_block H H si 0 L2
               (de ++ repeat zero (size_of [L2; H])) dd)
            (seq 0 (L1 + L2))))
  = (L1 + L2) * H.
Proof.
  intros Hde Hdd Hsi.
  apply length_concat_map. intros r Hr.
  apply length_update_block with (L1 := L1); assumption.
Qed.

(** The whole layer on inputs of the declared shapes: no check fails, and
    the result stacks the updated rows. *)
Lemma ConcatWithPadding_eq (vec_e vec_d : ndarray T) (mask_e : ndarray Z)
    (B L1 L2 H : nat) :
  shape vec_e = [B; L1; H] -> shape vec_d = [B; L2; H] ->
  shape mask_e = [B; L1] ->
  _ConcatWithPadding zero vec_e vec_d mask_e
  = Ok (NDArray [B; L1 + L2; H]
          (concat
             (map (fun i =>
                     concat
                       (map (update_block H H
                               (start_index (sum_int32 (item mask_e i))
                                            (L1 + L2) L2) 0 L2
                               (data (item vec_e i)
                                ++ repeat zero (size_of [L2; H]))
                               (data (item vec_d i)))
                            (seq 0 (L1 + L2))))
                  (seq 0 B)))).
Proof.
  intros He Hd Hm. unfold _ConcatWithPadding.
  rewrite He, Hd, Hm. cbn [unpack3 index nth_error bind].
  rewrite !shape_eqb_refl.
  pose (g := fun i =>
    NDArray [L1 + L2; H]
      (concat
         (map (update_block H H
                 (start_index (sum_int32 (item mask_e i)) (L1 + L2) L2) 0 L2
                 (data (item vec_e i) ++ repeat zero (size_of [L2; H]))
                 (data (item vec_d i)))
              (seq 0 (L1 + L2))))).
  rewrite (@lax_map3_ok _ _ _ _ (_UpdateRow zero) vec_e vec_d mask_e
             B _ _ _ g He Hd Hm).
  - reflexivity.
  - intros i. unfold g. apply UpdateRow_eq.
    + unfold item. cbn [shape]. rewrite He. reflexivity.
    + unfold item. cbn [shape]. rewrite Hd. reflexivity.
Qed.

Lemma ConcatWithPadding_items (vec_e vec_d : ndarray T) (mask_e : ndarray Z)
    (B L1 L2 H : nat) :
  shape vec_e = [B; L1; H] -> shape vec_d = [B; L2; H] ->
  shape mask_e = [B; L1] ->
  well_formed vec_e -> well_formed vec_d ->
  exists out,
    _ConcatWithPadding zero vec_e vec_d mask_e = Ok out
    /\ shape out = [B; L1 + L2; H]
    /\ well_formed out
    /\ forall b p, b < B -> p < L1 + L2 ->
         item (item out b) p
         = NDArray [H]
             (let si := start_index (sum_int32 (item mask_e b)) (L1 + L2) L2 in
              if (si <=? p) && (p <? si + L2) then
                block H (data (item vec_d b)) (p - si)
              else if p <? L1 then block H (data (item vec_e b)) p
                   else repeat zero H).
Proof.
  intros He Hd Hm Hwe Hwd.
  eexists. split; [apply ConcatWithPadding_eq; eassumption|].
  assert (Hrow : forall r, r < B ->
    length (data (item vec_e r)) = L1 * H
    /\ length (data (item vec_d r)) = L2 * H
    /\ start_index (sum_int32 (item mask_e r)) (L1 + L2) L2 <= L1).
  { intros r Hr. repeat split.
    - rewrite (length_item_data Hwe He Hr). apply size_of_2.
    - rewrite (length_item_data Hwd Hd Hr). apply size_of_2.
    - pose proof (@start_index_le (sum_int32 (item mask_e r)) (L1 + L2) L2).
      lia. }
  split; [reflexivity|]. split.
  - unfold well_formed. cbn [shape data].
    rewrite length_concat_map with (h := (L1 + L2) * H).
    + rewrite size_of_3. reflexivity.
    + intros r Hr. destruct (Hrow r Hr) as (H1 & H2 & H3).
      apply UpdateRow_length; assumption.
  - intros b p Hb Hp. destruct (Hrow b Hb) as (H1 & H2 & H3).
    rewrite (item_item _ _ (B := B) (L := L1 + L2) (H := H)) by reflexivity.
    rewrite item_stack; [|intros r Hr|exact Hb].
    + cbn [data]. rewrite UpdateRow_block by assumption. reflexivity.
    + destruct (Hrow r Hr) as (H1' & H2' & H3').
      rewrite (size_of_2 (L1 + L2) H). apply UpdateRow_length; assumption.
Qed.

Lemma ConcatWithPadding_forward_train (self : layer)
    (vec_e vec_d : ndarray T) (mask_e : ndarray Z) :
  _mode self <> "predict"%string -> state_ready self ->
  forward zero self (vec_e, vec_d, mask_e)
  = (set_state self (NDArray [1] (data (state self))),
     _ConcatWithPadding zero vec_e vec_d mask_e).
Proof.
  intros Hmode Hready. unfold forward.
  apply String.eqb_neq in Hmode. rewrite Hmode. cbn [negb orb].
  unfold reshape. rewrite Hready. reflexivity.
Qed.

End ConcatProofs.

(** ** StripFromConcatenateWithPadding *)

Lemma block_map {A B : Type} (f : A -> B) (h : nat) (l : list A) (i : nat) :
  block h (map f l) i = map f (block h l i).
Proof. unfold block. rewrite skipn_map, firstn_map. reflexivity. Qed.

Lemma item_not_equal_zero (a : ndarray Z) (i : nat) :
  item (not_equal_zero a) i = not_equal_zero (item a i).
Proof.
  unfold item, not_equal_zero. cbn [shape data].
  rewrite block_map. reflexivity.
Qed.

(** The sum of the indicator of the nonzero entries counts them. *)
Lemma sum_indicator (l : list Z) :
  fold_right Z.add 0%Z (map (fun t => if (t =? 0)%Z then 0%Z else 1%Z) l)
  = Z.of_nat (length (filter (fun t => negb (t =? 0)%Z) l)).
Proof.
  induction l as [|t l IH]; [reflexivity|].
  cbn [map fold_right filter]. rewrite IH.
  destruct (t =? 0)%Z; cbn [negb length]; lia.
Qed.

Lemma sum_zero_one_bounds (l : list Z) :
  (forall v, In v l -> v = 0%Z \/ v = 1%Z) ->
  (0 <= fold_right Z.add 0%Z l <= Z.of_nat (length l))%Z.
Proof.
  induction l as [|t l IH]; intros Hl; [simpl; lia|].
  cbn [fold_right length].
  assert (Ht : t = 0%Z \/ t = 1%Z) by (apply Hl; left; reflexivity).
  assert (IH' : (0 <= fold_right Z.add 0%Z l <= Z.of_nat (length l))%Z)
    by (apply IH; intros v Hv; apply Hl; right; exact Hv).
  lia.
Qed.

Lemma length_block_le {A : Type} (h : nat) (l : list A) (i : nat) :
  length (block h l i) <= h.
Proof. unfold block. rewrite length_firstn. lia. Qed.

Lemma In_block {A : Type} (h : nat) (l : list A) (i : nat) (x : A) :
  In x (block h l i) -> In x l.
Proof.
  unfold block. intros Hx.
  rewrite <- (firstn_skipn (i * h) l). apply in_or_app. right.
  rewrite <- (firstn_skipn h (skipn (i * h) l)). apply in_or_app. left.
  exact Hx.
Qed.

Lemma slice_block_full {A : Type} (h si : nat) (od : list A) (r : nat) :
  slice_block h h si 0 od r = block h od (si + r).
Proof.
  unfold slice_block. simpl skipn. unfold block.
  rewrite firstn_firstn, Nat.min_id. reflexivity.
Qed.

Section StripProofs.
Variable T : Type.
Import StripFromConcatenateWithPadding.

Lemma Strip_UpdateRow_eq (row_ed : ndarray T) (row_e row_d : ndarray Z)
    (L L2 H : nat) :
  shape row_ed = [L; H] -> L2 <= L ->
  _UpdateRow L2 H (row_ed, row_e, row_d)
  = Ok (NDArray [L2; H]
          (concat
             (map (fun r =>
                     block H (data row_ed)
                       (start_index (sum_int32 (not_equal_zero row_e)) L L2 + r))
                  (seq 0 L2)))).
Proof.
  intros Hed HL. unfold _UpdateRow, dynamic_slice.
  rewrite Hed. cbn [fst snd].
  replace ((L2 <=? L) && (H <=? H)) with true
    by (symmetry; apply andb_true_intro; split; apply Nat.leb_le; lia).
  rewrite start_index_zero_full.
  do 2 f_equal. f_equal. apply map_ext. intros r. apply slice_block_full.
Qed.

(** The whole layer on inputs of the declared shapes: no check fails, and
    the result stacks the slices. *)
Lemma Strip_eq (vec_ed : ndarray T) (tok_e tok_d : ndarray Z)
    (B L1 L2 H : nat) :
  shape vec_ed = [B; L1 + L2; H] -> shape tok_e = [B; L1] ->
  shape tok_d = [B; L2] ->
  _StripFromConcatenateWithPadding vec_ed tok_e tok_d
  = Ok (NDArray [B; L2; H]
          (concat
             (map (fun i =>
                     concat
                       (map (fun r =>
                               block H (data (item vec_ed i))
                                 (start_index
                                    (sum_int32 (not_equal_zero (item tok_e i)))
                                    (L1 + L2) L2 + r))
                            (seq 0 L2)))
                  (seq 0 B)))).
Proof.
  intros Hed He Hd. unfold _StripFromConcatenateWithPadding.
  rewrite Hed, He, Hd. cbn [unpack3 index nth_error bind].
  rewrite Nat.eqb_refl, !shape_eqb_refl.
  pose (g := fun i =>
    NDArray [L2; H]
      (concat
         (map (fun r =>
                 block H (data (item vec_ed i))
                   (start_index (sum_int32 (not_equal_zero (item tok_e i)))
                                (L1 + L2) L2 + r))
              (seq 0 L2)))).
  rewrite (@lax_map3_ok _ _ _ _ (_UpdateRow L2 H) vec_ed tok_e tok_d
             B _ _ _ g Hed He Hd).
  - reflexivity.
  - intros i. unfold g. apply Strip_UpdateRow_eq; [|lia].
    unfold item. cbn [shape]. rewrite Hed. reflexivity.
Qed.

Lemma Strip_forward_train (self : layer)
    (vec_ed : ndarray T) (tok_e tok_d : ndarray Z) :
  _mode self <> "predict"%string -> state_ready self ->
  forward self (vec_ed, tok_e, tok_d)
  = (set_state self (NDArray [1] (data (state self))),
     _StripFromConcatenateWithPadding vec_ed tok_e tok_d).
Proof.
  intros Hmode Hready. unfold forward.
  apply String.eqb_neq in Hmode. rewrite Hmode. cbn [negb orb].
  unfold reshape. rewrite Hready. reflexivity.
Qed.

Lemma Strip_items (vec_ed : ndarray T) (tok_e tok_d : ndarray Z)
    (B L1 L2 H : nat) :
  shape vec_ed = [B; L1 + L2; H] -> shape tok_e = [B; L1] ->
  shape tok_d = [B; L2] -> well_formed vec_ed ->
  exists out,
    _StripFromConcatenateWithPadding vec_ed tok_e tok_d = Ok out
    /\ shape out = [B; L2; H]
    /\ well_formed out
    /\ forall b q, b < B -> q < L2 ->
         item (item out b) q
         = item (item vec_ed b)
             (start_index (sum_int32 (not_equal_zero (item tok_e b)))
                          (L1 + L2) L2 + q).
Proof.
  intros Hed He Hd Hwf.
  eexists. split; [apply Strip_eq; eassumption|].
  assert (Hrow : forall i r, i < B -> r < L2 ->
    length (block H (data (item vec_ed i))
              (start_index (sum_int32 (not_equal_zero (item tok_e i)))
                           (L1 + L2) L2 + r)) = H).
  { intros i r Hi Hr. apply length_block.
    rewrite (length_item_data Hwf Hed Hi), size_of_2.
    pose proof (@start_index_le (sum_int32 (not_equal_zero (item tok_e i)))
                  (L1 + L2) L2).
    nia. }
  assert (Hlen : forall i, i < B ->
    length
      (concat
         (map (fun r =>
                 block H (data (item vec_ed i))
                   (start_index (sum_int32 (not_equal_zero (item tok_e i)))
                                (L1 + L2) L2 + r))
              (seq 0 L2))) = L2 * H).
  { intros i Hi. apply length_concat_map. intros r Hr. apply Hrow; assumption. }
  split; [reflexivity|]. split.
  - unfold well_formed. cbn [shape data].
    rewrite length_concat_map with (h := L2 * H) by exact Hlen.
    rewrite size_of_3. reflexivity.
  - intros b q Hb Hq.
    rewrite (item_item _ _ (B := B) (L := L2) (H := H)) by reflexivity.
    rewrite (@item_item _ vec_ed B (L1 + L2) H b _ Hed).
    rewrite item_stack;
      [|intros r Hr; rewrite size_of_2; apply Hlen; exact Hr|exact Hb].
    cbn [data].
    rewrite block_concat_map with (h := H);
      [reflexivity|intros r Hr; apply Hrow; assumption|exact Hq].
Qed.

End StripProofs.

(** ** Python's floats *)

Section Binary64Proofs.
Import Binary64.

Lemma two_not_zero : ~ (2 == 0)%Q.
Proof. discriminate. Qed.

Lemma pow2_pos (e : Z) : (0 < 2 ^ e)%Q.
Proof. apply Qpower_0_lt. reflexivity. Qed.

Lemma pow2_le (a b : Z) : (a <= b)%Z -> (2 ^ a <= 2 ^ b)%Q.
Proof. intros H. apply Qpower_le_compat_l; [exact H|discriminate]. Qed.

Lemma pow2_lt (a b : Z) : (a < b)%Z -> (2 ^ a < 2 ^ b)%Q.
Proof. intros H. apply Qpower_lt_compat_l; [exact H|reflexivity]. Qed.

Lemma pow2_lt_inv (a b : Z) : (2 ^ a < 2 ^ b)%Q -> (a < b)%Z.
Proof. intros H. apply Qpower_lt_compat_l_inv with (q := 2%Q); [exact H|reflexivity]. Qed.

Lemma pow2_Z (a : Z) : (0 <= a)%Z -> (inject_Z (2 ^ a) == 2 ^ a)%Q.
Proof. intros H. rewrite Zpower_Qpower by exact H. reflexivity. Qed.

(** [ilog2] finds the leading bit of a positive rational. *)
Lemma ilog2_le (q : Q) : (0 < q)%Q -> (2 ^ ilog2 q <= q)%Q.
Proof.
  intros Hq. unfold ilog2. cbv zeta.
  destruct (Qle_bool _ q) eqn:E; [apply Qle_bool_iff; exact E|].
  destruct q as [n d]. cbn [Qnum Qden].
  assert (Hn : (0 < n)%Z) by (unfold Qlt in Hq; cbn in Hq; lia).
  pose proof (Z.log2_spec n Hn) as [Ha _].
  pose proof (Z.log2_spec (Zpos d) (Pos2Z.is_pos d)) as [_ Hb].
  pose proof (Z.log2_nonneg n) as Ha0.
  pose proof (Z.log2_nonneg (Zpos d)) as Hb0.
  set (a := Z.log2 n) in *. set (b := Z.log2 (Zpos d)) in *.
  replace (a - b - 1)%Z with (a - Z.succ b)%Z by lia.
  rewrite Qpower_minus by exact two_not_zero.
  rewrite <- (pow2_Z Ha0), <- (pow2_Z (Z.le_le_succ_r _ _ Hb0)).
  apply Qle_shift_div_r.
  - change 0%Q with (inject_Z 0). rewrite <- Zlt_Qlt. lia.
  - unfold Qle, Qmult, inject_Z. cbn [Qnum Qden].
    rewrite Pos.mul_1_r, Z.mul_1_r. nia.
Qed.

Lemma ilog2_lt (q : Q) : (0 < q)%Q -> (q < 2 ^ (ilog2 q + 1))%Q.
Proof.
  intros Hq. unfold ilog2. cbv zeta.
  destruct (Qle_bool _ q) eqn:E.
  - destruct q as [n d]. cbn [Qnum Qden].
    assert (Hn : (0 < n)%Z) by (unfold Qlt in Hq; cbn in Hq; lia).
    pose proof (Z.log2_spec n Hn) as [_ Ha].
    pose proof (Z.log2_spec (Zpos d) (Pos2Z.is_pos d)) as [Hb _].
    pose proof (Z.log2_nonneg n) as Ha0.
    pose proof (Z.log2_nonneg (Zpos d)) as Hb0.
    set (a := Z.log2 n) in *. set (b := Z.log2 (Zpos d)) in *.
    replace (a - b + 1)%Z with (Z.succ a - b)%Z by lia.
    rewrite Qpower_minus by exact two_not_zero.
    rewrite <- (pow2_Z (Z.le_le_succ_r _ _ Ha0)), <- (pow2_Z Hb0).
    apply Qlt_shift_div_l.
    + change 0%Q with (inject_Z 0). rewrite <- Zlt_Qlt. lia.
    + unfold Qlt, Qmult, inject_Z. cbn [Qnum Qden].
      rewrite Pos.mul_1_r, Z.mul_1_r. nia.
  - replace (Z.log2 (Qnum q) - Z.log2 (Zpos (Qden q)) - 1 + 1)%Z
      with (Z.log2 (Qnum q) - Z.log2 (Zpos (Qden q)))%Z by lia.
    apply Qnot_le_lt. intros H. apply Qle_bool_iff in H. congruence.
Qed.

Lemma nearest_even_Z (x : Q) (z : Z) :
  (x == inject_Z z)%Q -> nearest_even x = z.
Proof.
  intros H. unfold nearest_even. cbv zeta.
  assert (Hf : Qfloor x = z)
    by (rewrite <- (Qfloor_Z z); apply Qfloor_comp; exact H).
  rewrite Hf.
  destruct (Qcompare_spec (x - inject_Z z) (1 # 2)) as [E|E|E];
    [exfalso; lra|reflexivity|exfalso; lra].
Qed.

(** The nearest integer is within a half. *)
Lemma nearest_even_near (x : Q) :
  (Qabs (inject_Z (nearest_even x) - x) <= 1 # 2)%Q.
Proof.
  unfold nearest_even. cbv zeta.
  pose proof (Qfloor_le x) as Hlo. pose proof (Qlt_floor x) as Hhi.
  rewrite inject_Z_plus in Hhi. change (inject_Z 1) with 1%Q in Hhi.
  apply Qabs_Qle_condition.
  destruct (Qcompare_spec (x - inject_Z (Qfloor x)) (1 # 2)) as [E|E|E].
  - destruct (Z.even (Qfloor x));
      [|rewrite inject_Z_plus; change (inject_Z 1) with 1%Q]; lra.
  - lra.
  - rewrite inject_Z_plus. change (inject_Z 1) with 1%Q. lra.
Qed.

Lemma Qabs_pos_lt (q : Q) : ~ (q == 0)%Q -> (0 < Qabs q)%Q.
Proof.
  intros Hq. destruct (Qlt_le_dec 0 q) as [H|H].
  - rewrite Qabs_pos by lra. exact H.
  - rewrite Qabs_neg by exact H.
    destruct (Qlt_le_dec q 0) as [H'|H']; [lra|].
    exfalso. apply Hq. lra.
Qed.

Lemma Qred_zero (q : Q) : (q == 0)%Q -> Qred q = 0%Q.
Proof. intros H. change 0%Q with (Qred 0). apply Qred_complete. exact H. Qed.

(** The exponent of the unit in the last place of [q] is at most [e]
    when [q] fits in 53 bits at exponent [e]. *)
Lemma ulp_exponent_le (q : Q) (k e : Z) :
  ~ (q == 0)%Q -> (q == inject_Z k * 2 ^ e)%Q ->
  (Z.abs k < 2 ^ 53)%Z -> (emin <= e)%Z ->
  (ulp_exponent q <= e)%Z.
Proof.
  intros Hq Hk Hb He. unfold ulp_exponent.
  apply Z.max_lub; [|exact He].
  pose proof (ilog2_le (Qabs_pos_lt Hq)) as Hlo.
  assert (Habs : (Qabs q == inject_Z (Z.abs k) * 2 ^ e)%Q).
  { rewrite Hk, Qabs_Qmult. rewrite (Qabs_pos (2 ^ e)).
    - reflexivity.
    - apply Qlt_le_weak, pow2_pos. }
  assert (Hlt : (Qabs q < 2 ^ (53 + e))%Q).
  { rewrite Habs, Qpower_plus by exact two_not_zero.
    apply Qmult_lt_compat_r; [apply pow2_pos|].
    rewrite <- pow2_Z by lia. rewrite <- Zlt_Qlt. exact Hb. }
  assert (Hl : (ilog2 (Qabs q) < 53 + e)%Z).
  { apply pow2_lt_inv. eapply Qle_lt_trans; [exact Hlo|exact Hlt]. }
  unfold prec. lia.
Qed.

(** A rational that fits in 53 bits is rounded to itself. *)
Lemma round_exact (q : Q) (k e : Z) :
  (q == inject_Z k * 2 ^ e)%Q ->
  (Z.abs k < 2 ^ 53)%Z -> (emin <= e <= 971)%Z ->
  round q = Ok (Qred q).
Proof.
  intros Hk Hb [He1 He2]. unfold round.
  destruct (Qeq_bool q 0) eqn:E0.
  - apply Qeq_bool_iff in E0. rewrite (Qred_zero E0). reflexivity.
  - assert (Hq : ~ (q == 0)%Q).
    { intro H. apply Qeq_bool_iff in H. congruence. }
    cbv zeta.
    pose proof (ulp_exponent_le Hq Hk Hb He1) as Hle.
    set (e' := ulp_exponent q) in *.
    assert (Hm : (q / 2 ^ e' == inject_Z (k * 2 ^ (e - e')))%Q).
    { rewrite inject_Z_mult, pow2_Z by lia.
      rewrite Qpower_minus by exact two_not_zero.
      rewrite Hk. field. apply Qpower_not_0. exact two_not_zero. }
    rewrite (nearest_even_Z Hm).
    assert (Hr : (inject_Z (k * 2 ^ (e - e')) * 2 ^ e' == q)%Q).
    { rewrite <- Hm. field. apply Qpower_not_0. exact two_not_zero. }
    destruct (Qle_bool (2 ^ emax) _) eqn:Eo.
    + exfalso. apply Qle_bool_iff in Eo. rewrite Hr in Eo.
      assert (Hlt : (Qabs q < 2 ^ emax)%Q).
      { rewrite Hk, Qabs_Qmult. rewrite (Qabs_pos (2 ^ e))
          by (apply Qlt_le_weak, pow2_pos).
        apply Qlt_le_trans with (y := (2 ^ 53 * 2 ^ e)%Q).
        - apply Qmult_lt_compat_r; [apply pow2_pos|].
          change (Qabs (inject_Z k)) with (inject_Z (Z.abs k)).
          rewrite <- pow2_Z by lia. rewrite <- Zlt_Qlt. exact Hb.
        - rewrite <- Qpower_plus by exact two_not_zero.
          apply pow2_le. unfold emax. lia. }
      lra.
    + f_equal. apply Qred_complete. exact Hr.
Qed.

(** Integers up to 2^53 in absolute value, and their halves, are floats. *)
Lemma round_int (z : Z) :
  exact_int z -> round (inject_Z z) = Ok (Qred (inject_Z z)).
Proof.
  intros Hz. unfold exact_int, prec in Hz.
  change (2 ^ 53)%Z with 9007199254740992%Z in *.
  destruct (Z.eq_dec (Z.abs z) 9007199254740992) as [E|E].
  - assert (Hc : z = 9007199254740992%Z \/ z = (-9007199254740992)%Z) by lia.
    destruct Hc as [-> | ->]; vm_compute; reflexivity.
  - apply round_exact with (k := z) (e := 0%Z).
    + change (2 ^ 0)%Q with 1%Q. ring.
    + lia.
    + unfold emin. lia.
Qed.

Lemma round_half (z : Z) :
  exact_int z ->
  round (inject_Z z / inject_Z 2) = Ok (Qred (inject_Z z / inject_Z 2)).
Proof.
  intros Hz. unfold exact_int, prec in Hz.
  change (2 ^ 53)%Z with 9007199254740992%Z in *.
  destruct (Z.eq_dec (Z.abs z) 9007199254740992) as [E|E].
  - assert (Hc : z = 9007199254740992%Z \/ z = (-9007199254740992)%Z) by lia.
    destruct Hc as [-> | ->]; vm_compute; reflexivity.
  - apply round_exact with (k := z) (e := (-1)%Z).
    + change (2 ^ (-1))%Q with (/ 2)%Q. change (inject_Z 2) with 2%Q.
      unfold Qdiv. reflexivity.
    + lia.
    + unfold emin. lia.
Qed.

(** A rounded value is within half a unit in the last place. *)
Lemma round_near (q r : Q) :
  round q = Ok r -> (Qabs (r - q) <= 2 ^ (ulp_exponent q - 1))%Q.
Proof.
  unfold round. destruct (Qeq_bool q 0) eqn:E0.
  - intros H. injection H as <-. apply Qeq_bool_iff in E0.
    pose proof (pow2_pos (ulp_exponent q - 1)).
    apply Qabs_Qle_condition. split; lra.
  - cbv zeta. set (e' := ulp_exponent q).
    destruct (Qle_bool (2 ^ emax) _); [discriminate|].
    intros H. injection H as <-.
    pose proof (pow2_pos e') as HP.
    pose proof (nearest_even_near (q / 2 ^ e')) as Hnear.
    set (m := inject_Z (nearest_even (q / 2 ^ e'))) in *.
    apply Qabs_Qle_condition in Hnear.
    assert (Hqx : (q == q / 2 ^ e' * 2 ^ e')%Q).
    { field. apply Qpower_not_0. exact two_not_zero. }
    assert (Hhalf : (2 ^ (e' - 1) == 2 ^ e' * (1 # 2))%Q).
    { unfold Z.sub. rewrite Qpower_plus by exact two_not_zero. reflexivity. }
    pose proof (Qred_correct (m * 2 ^ e')) as Hr.
    set (R := Qred (m * 2 ^ e')) in *.
    set (x := (q / 2 ^ e')%Q) in *. set (P := (2 ^ e')%Q) in *.
    assert (Hdiff : (- (P * (1 # 2)) <= m * P - q <= P * (1 # 2))%Q).
    { rewrite Hqx. split; nra. }
    rewrite <- Hr in Hdiff.
    rewrite Hhalf. apply Qabs_Qle_condition. exact Hdiff.
Qed.

(** A rational of moderate size, at least a half in absolute value, is
    rounded to a float that is not zero. *)
Lemma round_nonzero (q : Q) :
  (1 # 2 <= Qabs q)%Q -> (Qabs q <= 2 ^ 60)%Q ->
  exists r, round q = Ok r /\ ~ (r == 0)%Q.
Proof.
  intros Hlo Hhi.
  assert (Hq : ~ (q == 0)%Q).
  { intro H. rewrite H in Hlo. cbn in Hlo. unfold Qle in Hlo. cbn in Hlo. lia. }
  unfold round.
  destruct (Qeq_bool q 0) eqn:E0;
    [apply Qeq_bool_iff in E0; contradiction|].
  cbv zeta.
  pose proof (ilog2_le (Qabs_pos_lt Hq)) as Hil.
  set (L := ilog2 (Qabs q)) in *.
  assert (HL : (L < 61)%Z).
  { apply pow2_lt_inv. eapply Qle_lt_trans; [exact Hil|].
    eapply Qle_lt_trans; [exact Hhi|]. apply pow2_lt. lia. }
  assert (He : ulp_exponent q = Z.max (L - 52) emin) by reflexivity.
  set (e' := ulp_exponent q) in *.
  assert (He8 : (e' <= 8)%Z) by (unfold emin in He; lia).
  pose proof (pow2_pos e') as HP.
  assert (HP8 : (2 ^ e' <= 2 ^ 8)%Q) by (apply pow2_le; exact He8).
  pose proof (nearest_even_near (q / 2 ^ e')) as Hnear.
  set (m := inject_Z (nearest_even (q / 2 ^ e'))) in *.
  apply Qabs_Qle_condition in Hnear.
  assert (Hqx : (q == q / 2 ^ e' * 2 ^ e')%Q).
  { field. apply Qpower_not_0. exact two_not_zero. }
  set (x := (q / 2 ^ e')%Q) in *.
  set (P := (2 ^ e')%Q) in *.
  assert (Hdiff : (- (P * (1 # 2)) <= m * P - q <= P * (1 # 2))%Q).
  { rewrite Hqx. split; nra. }
  assert (Hsmall : (Qabs q <= 2 ^ (e' - 1))%Q -> False).
  { intros Hs.
    destruct (Z.max_spec (L - 52) emin) as [[_ Hmax]|[_ Hmax]];
      rewrite <- He in Hmax.
    - assert (Hlt : (2 ^ (e' - 1) < 2 ^ (-1))%Q)
        by (apply pow2_lt; unfold emin in Hmax; lia).
      change (2 ^ (-1))%Q with (/ 2)%Q in Hlt.
      change (/ 2)%Q with (1 # 2)%Q in Hlt. lra.
    - assert (Hlt : (2 ^ (e' - 1) < 2 ^ L)%Q) by (apply pow2_lt; lia).
      lra. }
  assert (Hhalf : (2 ^ (e' - 1) == P * (1 # 2))%Q).
  { unfold P. unfold Z.sub. rewrite Qpower_plus by exact two_not_zero.
    reflexivity. }
  destruct (Qle_bool (2 ^ emax) (Qabs (m * P))) eqn:Eo.
  - exfalso. apply Qle_bool_iff in Eo.
    assert (Hbig : (2 ^ 60 + 2 ^ 8 < 2 ^ emax)%Q) by reflexivity.
    assert (Hr : (Qabs (m * P) <= Qabs q + P * (1 # 2))%Q).
    { apply Qabs_Qle_condition.
      pose proof (Qle_Qabs q). pose proof (Qle_Qabs (- q)) as Hn.
      rewrite Qabs_opp in Hn. split; lra. }
    lra.
  - exists (Qred (m * P)). split; [reflexivity|].
    rewrite Qred_correct. intros Hz. apply Hsmall. rewrite Hhalf.
    apply Qabs_Qle_condition. split; lra.
Qed.

End Binary64Proofs.

(** ** The head count of the Terraformer *)

Section TerraformerHeads.
Import Binary64 Terraformer.

Lemma truncate_near (x : Q) : (Qabs (x - inject_Z (truncate x)) < 1)%Q.
Proof.
  unfold truncate. apply Qabs_Qlt_condition.
  destruct (Qle_bool 0 x) eqn:E.
  - pose proof (Qfloor_le x). pose proof (Qlt_floor x) as Hhi.
    rewrite inject_Z_plus in Hhi. change (inject_Z 1) with 1%Q in Hhi.
    split; lra.
  - pose proof (Qle_ceiling x). pose proof (Qceiling_lt x) as Hlo.
    unfold Z.sub in Hlo. rewrite inject_Z_plus in Hlo.
    rewrite inject_Z_opp in Hlo. change (inject_Z 1) with 1%Q in Hlo.
    split; lra.
Qed.

Lemma truncate_Z (x : Q) (z : Z) : (x == inject_Z z)%Q -> truncate x = z.
Proof.
  intros H. unfold truncate.
  destruct (Qle_bool 0 x).
  - rewrite <- (Qfloor_Z z). apply Qfloor_comp. exact H.
  - rewrite <- (Qceiling_Z z). apply Qceiling_comp. exact H.
Qed.

Lemma fmod_zero_iff (x w : Q) :
  ~ (w == 0)%Q ->
  ((fmod x w == 0)%Q <-> exists k : Z, (x == inject_Z k * w)%Q).
Proof.
  intros Hw. unfold fmod. split.
  - intros H. exists (truncate (x / w)). rewrite Qmult_comm.
    apply Qplus_inj_r with (z := (- (w * inject_Z (truncate (x / w))))%Q).
    rewrite Qplus_opp_r. exact H.
  - intros [k Hk].
    assert (Hdiv : (x / w == inject_Z k)%Q) by (rewrite Hk; field; exact Hw).
    rewrite (truncate_Z Hdiv), Hk. ring.
Qed.

Lemma fmod_lt (x w : Q) :
  ~ (w == 0)%Q -> (Qabs (fmod x w) < Qabs w)%Q.
Proof.
  intros Hw. unfold fmod.
  assert (E : (x - w * inject_Z (truncate (x / w))
               == w * (x / w - inject_Z (truncate (x / w))))%Q)
    by (field; exact Hw).
  rewrite E, Qabs_Qmult.
  rewrite <- (Qmult_1_r (Qabs w)) at 2.
  apply Qmult_lt_l; [apply Qabs_pos_lt; exact Hw|apply truncate_near].
Qed.

Lemma truediv_two (d_model : Z) :
  exact_int d_model -> truediv d_model 2 = Ok (Qred (half d_model)).
Proof. intros Hd. unfold truediv. cbn [Z.eqb]. apply round_half. exact Hd. Qed.

Lemma float_exact (n : Z) :
  exact_int n -> float n = Ok (Qred (inject_Z n)).
Proof. intros Hn. apply round_int. exact Hn. Qed.

Lemma inject_Z_nonzero (n : Z) : n <> 0%Z -> ~ (inject_Z n == 0)%Q.
Proof. intros Hn H. apply Hn. unfold Qeq in H. cbn in H. lia. Qed.

(** A nonzero number whose double is an integer is at least a half in
    absolute value. *)
Lemma half_integer_large (s : Q) (z : Z) :
  (2 * s == inject_Z z)%Q -> ~ (s == 0)%Q -> (1 # 2 <= Qabs s)%Q.
Proof.
  intros Hz Hs.
  assert (Hz0 : z <> 0%Z).
  { intros ->. apply Hs. change (inject_Z 0) with 0%Q in Hz. lra. }
  destruct (Z_lt_le_dec z 0) as [Hneg|Hpos].
  - assert (H1 : (inject_Z z <= inject_Z (-1))%Q) by (rewrite <- Zle_Qle; lia).
    change (inject_Z (-1)) with (-1 # 1)%Q in H1.
    rewrite <- Qabs_opp. eapply Qle_trans; [|apply Qle_Qabs]. lra.
  - assert (H1 : (inject_Z 1 <= inject_Z z)%Q) by (rewrite <- Zle_Qle; lia).
    change (inject_Z 1) with 1%Q in H1.
    eapply Qle_trans; [|apply Qle_Qabs]. lra.
Qed.

(** What [float_mod] returns on half of a [d_model] and a head count, both
    within the integers that binary64 holds exactly: a float that is zero
    exactly when the head count divides the half. *)
Lemma float_mod_regime (d_model n_heads : Z) (x : Q) :
  exact_int d_model -> exact_int n_heads -> n_heads <> 0%Z ->
  (x == half d_model)%Q ->
  exists r, float_mod x n_heads = Ok r
            /\ ((r == 0)%Q
                <-> exists k : Z, (x == inject_Z k * inject_Z n_heads)%Q).
Proof.
  intros Hd Hn Hn0 Hx. unfold float_mod. rewrite (float_exact Hn). cbn [bind].
  set (w := Qred (inject_Z n_heads)).
  assert (Hw : (w == inject_Z n_heads)%Q) by apply Qred_correct.
  assert (Hw0 : ~ (w == 0)%Q).
  { rewrite Hw. apply inject_Z_nonzero. exact Hn0. }
  destruct (Qeq_bool w 0) eqn:Ew;
    [apply Qeq_bool_iff in Ew; contradiction|]. cbn [negb].
  pose proof (fmod_zero_iff x Hw0) as Hzero.
  pose proof (fmod_lt x Hw0) as Hlt.
  assert (Hint : (2 * (fmod x w + w)
                  == inject_Z (d_model + - (2 * n_heads * truncate (x / w))
                               + 2 * n_heads))%Q).
  { unfold fmod. rewrite Hx at 1. unfold half.
    rewrite !inject_Z_plus, inject_Z_opp, !inject_Z_mult.
    rewrite Hw at 1 3. change (inject_Z 2) with 2%Q. field. }
  set (m := fmod x w) in *.
  assert (Hiff : (m == 0)%Q
                 <-> exists k : Z, (x == inject_Z k * inject_Z n_heads)%Q).
  { rewrite Hzero. split; intros [k Hk]; exists k.
    - rewrite <- Hw. exact Hk.
    - rewrite Hw. exact Hk. }
  destruct (Qeq_bool m 0) eqn:Em.
  - exists 0%Q. split; [reflexivity|]. apply Qeq_bool_iff in Em.
    split; [intros _; apply Hiff; exact Em|reflexivity].
  - assert (Hm0 : ~ (m == 0)%Q).
    { intro H. apply Qeq_bool_iff in H. congruence. }
    destruct (xorb (negative w) (negative m)).
    + assert (Hsum : ~ (m + w == 0)%Q).
      { intros Hs. assert (Hmw : (m == - w)%Q) by lra.
        rewrite Hmw, Qabs_opp in Hlt. lra. }
      destruct (@round_nonzero (m + w)) as [r [Hr Hr0]].
      * apply half_integer_large with (1 := Hint). exact Hsum.
      * eapply Qle_trans; [apply Qabs_triangle|].
        assert (Hwn : (Qabs w <= inject_Z (2 ^ 53))%Q).
        { rewrite Hw. change (Qabs (inject_Z n_heads))
            with (inject_Z (Z.abs n_heads)).
          rewrite <- Zle_Qle. exact Hn. }
        assert (Hc : (inject_Z (2 ^ 53) + inject_Z (2 ^ 53) <= 2 ^ 60)%Q)
          by (vm_compute; discriminate).
        lra.
      * exists r. split; [exact Hr|].
        split; [intros H; contradiction|].
        intros H. apply Hiff in H. contradiction.
    + exists m. split; [reflexivity|].
      split; [intros H; contradiction|].
      intros H. apply Hiff in H. contradiction.
Qed.

Lemma heads_check_zero_heads (d_model : Z) (dk dv : option Z) :
  exact_int d_model ->
  ConfigurableTerraformer d_model dk dv 0 = Raise ZeroDivisionError.
Proof.
  intros Hd. unfold ConfigurableTerraformer.
  rewrite (truediv_two Hd). reflexivity.
Qed.



Lemma heads_check_passes (d_model n_heads : Z) (dk dv : option Z)
    (kv : Z * Z) :
  exact_int d_model -> exact_int n_heads ->
  ConfigurableTerraformer d_model dk dv n_heads = Ok kv ->
  n_heads <> 0%Z
  /\ (exists q : Z, d_model = (2 * q * n_heads)%Z)
  /\ default_to dk (Ok (d_model / n_heads)%Z) = Ok (fst kv)
  /\ default_to dv (Ok (d_model / n_heads)%Z) = Ok (snd kv).
Proof.
  intros Hd Hn Hok.
  destruct (Z.eq_dec n_heads 0) as [->|Hn0];
    [rewrite (heads_check_zero_heads dk dv Hd) in Hok; discriminate|].
  split; [exact Hn0|].
  unfold ConfigurableTerraformer in Hok.
  rewrite (truediv_two Hd) in Hok. cbn [bind] in Hok.
  destruct (@float_mod_regime d_model n_heads (Qred (half d_model))
              Hd Hn Hn0 (Qred_correct _)) as [r [Hr Hiff]].
  rewrite Hr in Hok. cbn [bind] in Hok.
  destruct (Qeq_bool r 0%Q) eqn:E; [|discriminate].
  apply Qeq_bool_iff in E. apply Hiff in E.
  split.
  - destruct E as [q Hq]. exists q. rewrite Qred_correct in Hq.
    unfold half, Qeq, Qdiv, Qmult, Qinv, inject_Z in Hq. cbn in Hq. lia.
  - unfold floordiv in Hok.
    destruct (Z.eqb_spec n_heads 0); [contradiction|].
    destruct dk, dv; cbn in Hok |- *; injection Hok as <-; split; reflexivity.
Qed.

End TerraformerHeads.

(** Beyond 2^53 the check is applied to rounded floats: half of 2^53 + 1 is
    rounded to 2^52, which one head divides; half of 2^54 + 2 is rounded to
    2^53; and an int of 401 digits is too large for a float. *)
Lemma heads_check_beyond_exact_ints :
  Terraformer.ConfigurableTerraformer (2 ^ 53 + 1) None None 1
  = Ok (2 ^ 53 + 1, 2 ^ 53 + 1)%Z
  /\ Terraformer.ConfigurableTerraformer (2 ^ 54 + 2) None None (2 ^ 53)
     = Ok (2, 2)%Z
  /\ Terraformer.ConfigurableTerraformer (10 ^ 400) None None 8
     = Raise OverflowError.
Proof. repeat split; vm_compute; reflexivity. Qed.



(** ** The claims on the two layers *)

Lemma mask_row_start (mask_e : ndarray Z) (B L1 L2 b : nat) :
  shape mask_e = [B; L1] ->
  (forall v, In v (data mask_e) -> v = 0%Z \/ v = 1%Z) ->
  (Z.of_nat L1 < 2 ^ 31)%Z ->
  (0 <= fold_right Z.add 0%Z (data (item mask_e b)) <= Z.of_nat L1)%Z
  /\ start_index (sum_int32 (item mask_e b)) (L1 + L2) L2
     = Z.to_nat (fold_right Z.add 0%Z (data (item mask_e b))).
Proof.
  intros Hm H01 Hsmall.
  assert (Hb : (0 <= fold_right Z.add 0%Z (data (item mask_e b))
                <= Z.of_nat L1)%Z).
  { pose proof (@sum_zero_one_bounds (data (item mask_e b))) as Hsum.
    assert (Hlen : length (data (item mask_e b)) <= L1).
    { unfold item. rewrite Hm. cbn [tl data]. rewrite size_of_1.
      apply length_block_le. }
    assert (Hin : forall v, In v (data (item mask_e b)) -> v = 0%Z \/ v = 1%Z).
    { intros v Hv. apply H01. unfold item in Hv. cbn [data] in Hv.
      eapply In_block. exact Hv. }
    specialize (Hsum Hin). lia. }
  split; [exact Hb|].
  unfold sum_int32. rewrite int32_small by lia.
  apply start_index_in_range. lia.
Qed.

(** C2 (as amended).  In train/eval mode, on encoder vectors of shape
    (B, L1, H), decoder vectors of shape (B, L2, H) and a 0/1 mask of shape
    (B, L1), with L1 in the range of [int32], [ConcatWithPadding] returns a
    (B, L1+L2, H) array.  In every row [b], with [n] the sum of the row's
    mask: positions below [n] hold the encoder vectors of those positions,
    positions [n .. n+L2-1] hold the decoder vectors, and the positions from
    [n+L2] on hold what the zero-extended encoder row held there: the encoder
    vector of that position below [L1], the zero vector from [L1] on. *)
Theorem C2_concat_layout (T : Type) (zero : T) (self : layer)
    (vec_e vec_d : ndarray T) (mask_e : ndarray Z) (B L1 L2 H : nat) :
  _mode self <> "predict"%string -> state_ready self ->
  shape vec_e = [B; L1; H] -> shape vec_d = [B; L2; H] ->
  shape mask_e = [B; L1] ->
  well_formed vec_e -> well_formed vec_d ->
  (forall v, In v (data mask_e) -> v = 0%Z \/ v = 1%Z) ->
  (Z.of_nat L1 < 2 ^ 31)%Z ->
  exists out,
    snd (ConcatWithPadding.forward zero self (vec_e, vec_d, mask_e)) = Ok out
    /\ shape out = [B; L1 + L2; H]
    /\ well_formed out
    /\ forall b, b < B ->
         let n := Z.to_nat (fold_right Z.add 0%Z (data (item mask_e b))) in
         n <= L1
         /\ (forall p, p < n -> item (item out b) p = item (item vec_e b) p)
         /\ (forall q, q < L2 ->
               item (item out b) (n + q) = item (item vec_d b) q)
         /\ (forall p, n + L2 <= p -> p < L1 ->
               item (item out b) p = item (item vec_e b) p)
         /\ (forall p, n + L2 <= p -> L1 <= p -> p < L1 + L2 ->
               item (item out b) p = NDArray [H] (repeat zero H)).
Proof.
  intros Hmode Hready He Hd Hm Hwe Hwd H01 Hsmall.
  destruct (ConcatWithPadding_items zero mask_e He Hd Hm Hwe Hwd)
    as (out & Hout & Hshape & Hwf & Hitems).
  exists out.
  rewrite ConcatWithPadding_forward_train by assumption. cbn [snd].
  repeat split; try assumption.
  all: destruct (@mask_row_start mask_e B L1 L2 b Hm H01 Hsmall) as [Hn Hsi].
  - lia.
  - intros p Hp. rewrite Hitems by lia. cbv zeta. rewrite Hsi.
    rewrite (@item_item _ vec_e B L1 H b _ He).
    destruct (Nat.leb_spec
                (Z.to_nat (fold_right Z.add 0%Z (data (item mask_e b)))) p);
      [lia|].
    cbn [andb].
    destruct (Nat.ltb_spec p L1); [reflexivity|lia].
  - intros q Hq. rewrite Hitems by lia. cbv zeta. rewrite Hsi.
    rewrite (@item_item _ vec_d B L2 H b _ Hd).
    set (n := Z.to_nat (fold_right Z.add 0%Z (data (item mask_e b)))).
    destruct (Nat.leb_spec n (n + q)); [|lia].
    destruct (Nat.ltb_spec (n + q) (n + L2)); [|lia].
    cbn [andb]. replace (n + q - n) with q by lia. reflexivity.
  - intros p Hp1 Hp2. rewrite Hitems by lia. cbv zeta. rewrite Hsi.
    rewrite (@item_item _ vec_e B L1 H b _ He).
    set (n := Z.to_nat (fold_right Z.add 0%Z (data (item mask_e b)))) in *.
    destruct (Nat.ltb_spec p (n + L2)); [lia|].
    rewrite andb_false_r.
    destruct (Nat.ltb_spec p L1); [reflexivity|lia].
  - intros p Hp1 Hp2 Hp3. rewrite Hitems by lia. cbv zeta. rewrite Hsi.
    set (n := Z.to_nat (fold_right Z.add 0%Z (data (item mask_e b)))) in *.
    destruct (Nat.ltb_spec p (n + L2)); [lia|].
    rewrite andb_false_r.
    destruct (Nat.ltb_spec p L1); [lia|reflexivity].
Qed.

Lemma C2_concat_layout_witness :
  exists out,
    snd (ConcatWithPadding.forward 0%Z Examples.train_layer
           (Examples.vec_e, Examples.vec_d, Examples.mask_e)) = Ok out
    /\ shape out = [1; 3 + 1; 1]
    /\ well_formed out
    /\ forall b, b < 1 ->
         let n :=
           Z.to_nat (fold_right Z.add 0%Z (data (item Examples.mask_e b))) in
         n <= 3
         /\ (forall p, p < n ->
               item (item out b) p = item (item Examples.vec_e b) p)
         /\ (forall q, q < 1 ->
               item (item out b) (n + q) = item (item Examples.vec_d b) q)
         /\ (forall p, n + 1 <= p -> p < 3 ->
               item (item out b) p = item (item Examples.vec_e b) p)
         /\ (forall p, n + 1 <= p -> 3 <= p -> p < 3 + 1 ->
               item (item out b) p = NDArray [1] (repeat 0%Z 1)).
Proof.
  apply (@C2_concat_layout Z 0%Z Examples.train_layer
           Examples.vec_e Examples.vec_d Examples.mask_e 1 3 1 1).
  - discriminate.
  - reflexivity.
  - reflexivity.
  - reflexivity.
  - reflexivity.
  - reflexivity.
  - reflexivity.
  - simpl. intros v [<-|[<-|[<-|[]]]]; auto.
  - reflexivity.
Defined.

(** C2, as stated, fails: with one real encoder token out of three and one
    decoder vector, position 2 lies beyond [n + L2 - 1 = 1], inside the
    length-3 encoder region, and holds the encoder vector [8], not zero. *)
Lemma C2_tail_in_encoder_region_not_zero :
  exists out,
    snd (ConcatWithPadding.forward 0%Z Examples.train_layer
           (Examples.vec_e, Examples.vec_d, Examples.mask_e)) = Ok out
    /\ Z.to_nat (fold_right Z.add 0%Z (data (item Examples.mask_e 0))) = 1
    /\ 1 + 1 <= 2 /\ 2 < 3 + 1
    /\ item (item out 0) 2 = NDArray [1] [8%Z]
    /\ item (item out 0) 2 <> NDArray [1] (repeat 0%Z 1).
Proof.
  eexists. split; [reflexivity|].
  repeat split; try lia. discriminate.
Qed.

Lemma token_row_start (tok_e : ndarray Z) (B L1 L2 b : nat) :
  shape tok_e = [B; L1] ->
  (Z.of_nat L1 < 2 ^ 31)%Z ->
  length (filter (fun t => negb (t =? 0)%Z) (data (item tok_e b))) <= L1
  /\ start_index (sum_int32 (not_equal_zero (item tok_e b))) (L1 + L2) L2
     = length (filter (fun t => negb (t =? 0)%Z) (data (item tok_e b))).
Proof.
  intros He Hsmall.
  assert (Hlen : length (filter (fun t => negb (t =? 0)%Z)
                           (data (item tok_e b))) <= L1).
  { etransitivity; [apply filter_length_le|].
    unfold item. rewrite He. cbn [tl data]. rewrite size_of_1.
    apply length_block_le. }
  split; [exact Hlen|].
  unfold sum_int32, not_equal_zero. cbn [data].
  rewrite sum_indicator, int32_small by lia.
  rewrite start_index_in_range by lia. apply Nat2Z.id.
Qed.

(** C6.  In train/eval mode, on a merged array of shape (B, L1+L2, H) and
    token ids of shapes (B, L1) and (B, L2), with L1 in the range of
    [int32], [StripFromConcatenateWithPadding] returns a (B, L2, H) array
    whose row [b] is the run of L2 vectors of the merged row [b] that starts
    at the number of nonzero encoder token ids of that row. *)
Theorem C6_strip_slices_after_encoder (T : Type) (self : layer)
    (vec_ed : ndarray T) (tok_e tok_d : ndarray Z) (B L1 L2 H : nat) :
  _mode self <> "predict"%string -> state_ready self ->
  shape vec_ed = [B; L1 + L2; H] -> shape tok_e = [B; L1] ->
  shape tok_d = [B; L2] ->
  well_formed vec_ed ->
  (Z.of_nat L1 < 2 ^ 31)%Z ->
  exists out,
    snd (StripFromConcatenateWithPadding.forward self (vec_ed, tok_e, tok_d))
    = Ok out
    /\ shape out = [B; L2; H]
    /\ well_formed out
    /\ forall b, b < B ->
         let n :=
           length (filter (fun t => negb (t =? 0)%Z) (data (item tok_e b))) in
         n <= L1
         /\ forall q, q < L2 ->
              item (item out b) q = item (item vec_ed b) (n + q).
Proof.
  intros Hmode Hready Hed He Hd Hwf Hsmall.
  destruct (Strip_items tok_e tok_d Hed He Hd Hwf)
    as (out & Hout & Hshape & Hwfo & Hitems).
  exists out.
  rewrite Strip_forward_train by assumption.
  cbn [snd]. repeat split; try assumption.
  all: destruct (@token_row_start tok_e B L1 L2 b He Hsmall) as [Hn Hsi].
  - exact Hn.
  - intros q Hq. rewrite Hitems by assumption. rewrite Hsi. reflexivity.
Qed.

Lemma C6_strip_slices_after_encoder_witness :
  exists out,
    snd (StripFromConcatenateWithPadding.forward Examples.train_layer
           (NDArray [1; 3 + 1; 1] [5; 9; 8; 0]%Z,
            Examples.tok_e, Examples.tok_d))
    = Ok out
    /\ shape out = [1; 1; 1]
    /\ well_formed out
    /\ forall b, b < 1 ->
         let n :=
           length (filter (fun t => negb (t =? 0)%Z)
                     (data (item Examples.tok_e b))) in
         n <= 3
         /\ forall q, q < 1 ->
              item (item out b) q
              = item (item (NDArray [1; 3 + 1; 1] [5; 9; 8; 0]%Z) b) (n + q).
Proof.
  apply (@C6_strip_slices_after_encoder Z Examples.train_layer
           (NDArray [1; 3 + 1; 1] [5; 9; 8; 0]%Z)
           Examples.tok_e Examples.tok_d 1 3 1 1).
  - discriminate.
  - reflexivity.
  - reflexivity.
  - reflexivity.
  - reflexivity.
  - reflexivity.
  - reflexivity.
Defined.

(** C1.  In train/eval mode, with the mask [tok_e != 0]: concatenating
    encoder vectors of shape (B, L1, H) with decoder vectors of shape
    (B, L2, H) and then stripping the result with the token ids of shapes
    (B, L1) and (B, L2) returns the decoder vectors exactly. *)
Theorem C1_concat_then_strip_is_identity (T : Type) (zero : T)
    (concat_layer strip_layer : layer)
    (vec_e vec_d : ndarray T) (tok_e tok_d : ndarray Z) (B L1 L2 H : nat) :
  _mode concat_layer <> "predict"%string -> state_ready concat_layer ->
  _mode strip_layer <> "predict"%string -> state_ready strip_layer ->
  shape vec_e = [B; L1; H] -> shape vec_d = [B; L2; H] ->
  shape tok_e = [B; L1] -> shape tok_d = [B; L2] ->
  well_formed vec_e -> well_formed vec_d ->
  exists vec_ed,
    snd (ConcatWithPadding.forward zero concat_layer
           (vec_e, vec_d, EncoderMask tok_e)) = Ok vec_ed
    /\ snd (StripFromConcatenateWithPadding.forward strip_layer
              (vec_ed, tok_e, tok_d)) = Ok vec_d.
Proof.
  intros Hmc Hrc Hms Hrs He Hd Hte Htd Hwe Hwd.
  assert (Hm : shape (EncoderMask tok_e) = [B; L1]) by exact Hte.
  destruct (ConcatWithPadding_items zero (EncoderMask tok_e) He Hd Hm Hwe Hwd)
    as (out & Hout & Hshape & Hwf & Hitems).
  exists out.
  rewrite ConcatWithPadding_forward_train by assumption.
  rewrite Strip_forward_train by assumption. cbn [snd].
  split; [exact Hout|].
  rewrite (Strip_eq out tok_e tok_d Hshape Hte Htd).
  rewrite <- (ndarray_eta vec_d). rewrite Hd. do 2 f_equal.
  rewrite <- (concat_blocks (size_of [L2; H]) B (data vec_d))
    by (rewrite Hwd, Hd; reflexivity).
  f_equal. apply map_ext_in. intros b Hb. apply in_seq in Hb.
  assert (Hlen : length (data (item vec_d b)) = L2 * H)
    by (rewrite (length_item_data Hwd Hd); [apply size_of_2|lia]).
  change (block (size_of [L2; H]) (data vec_d) b)
    with (block (size_of (tl [B; L2; H])) (data vec_d) b).
  rewrite <- Hd. change (block (size_of (tl (shape vec_d))) (data vec_d) b)
    with (data (item vec_d b)).
  rewrite <- (concat_blocks H L2 (data (item vec_d b)) Hlen).
  f_equal. apply map_ext_in. intros r Hr. apply in_seq in Hr.
  set (si := start_index (sum_int32 (not_equal_zero (item tok_e b)))
                         (L1 + L2) L2).
  assert (Hsi : si + L2 <= L1 + L2)
    by (apply start_index_le; lia).
  assert (Hit : item (item out b) (si + r) = _)
    by (apply Hitems; lia).
  rewrite (@item_item _ out B (L1 + L2) H b _ Hshape) in Hit.
  apply (f_equal (@data T)) in Hit. cbn [data] in Hit. rewrite Hit.
  unfold EncoderMask. rewrite item_not_equal_zero. fold si.
  destruct (Nat.leb_spec si (si + r)); [|lia].
  destruct (Nat.ltb_spec (si + r) (si + L2)); [|lia].
  cbn [andb]. replace (si + r - si) with r by lia. reflexivity.
Qed.

Lemma C1_concat_then_strip_is_identity_witness :
  exists vec_ed,
    snd (ConcatWithPadding.forward 0%Z Examples.train_layer
           (Examples.vec_e, Examples.vec_d, EncoderMask Examples.tok_e))
    = Ok vec_ed
    /\ snd (StripFromConcatenateWithPadding.forward Examples.train_layer
              (vec_ed, Examples.tok_e, Examples.tok_d)) = Ok Examples.vec_d.
Proof.
  apply (@C1_concat_then_strip_is_identity Z 0%Z
           Examples.train_layer Examples.train_layer
           Examples.vec_e Examples.vec_d Examples.tok_e Examples.tok_d
           1 3 1 1).
  - discriminate.
  - reflexivity.
  - discriminate.
  - reflexivity.
  - reflexivity.
  - reflexivity.
  - reflexivity.
  - reflexivity.
  - reflexivity.
  - reflexivity.
Defined.

(** C8 (as amended).  In train/eval mode, on an encoder vector of shape
    (B, L1, H): when the decoder vector has an axis 1, of size L2, the layer
    raises the [ValueError] that cites the decoder vector's shape and
    (B, L2, H) if they differ, else the [ValueError] that cites the mask's
    shape and (B, L1) if they differ, and otherwise returns without raising.
    A decoder vector with fewer than two axes raises [IndexError], from
    [vec_d.shape[1]], before any check. *)
Theorem C8_concat_shape_errors (T : Type) (zero : T) (self : layer)
    (vec_e vec_d : ndarray T) (mask_e : ndarray Z) (B L1 H : nat) :
  _mode self <> "predict"%string -> state_ready self ->
  shape vec_e = [B; L1; H] ->
  let r := snd (ConcatWithPadding.forward zero self (vec_e, vec_d, mask_e)) in
  match nth_error (shape vec_d) 1 with
  | Some L2 =>
      (shape vec_d <> [B; L2; H] ->
       r = Raise (ValueError (DecoderVectorShape (shape vec_d) [B; L2; H])))
      /\ (shape vec_d = [B; L2; H] -> shape mask_e <> [B; L1] ->
          r = Raise (ValueError (EncoderMaskShape (shape mask_e) [B; L1])))
      /\ (shape vec_d = [B; L2; H] -> shape mask_e = [B; L1] ->
          exists out, r = Ok out)
  | None => r = Raise IndexError
  end.
Proof.
  intros Hmode Hready He r. subst r.
  rewrite ConcatWithPadding_forward_train by assumption. cbn [snd].
  destruct (nth_error (shape vec_d) 1) as [L2|] eqn:Hidx.
  - repeat split.
    + intros Hne. unfold ConcatWithPadding._ConcatWithPadding, index.
      rewrite He, Hidx. cbn [unpack3 bind].
      rewrite (proj2 (shape_eqb_neq _ _) Hne). reflexivity.
    + intros Hd Hne. unfold ConcatWithPadding._ConcatWithPadding, index.
      rewrite He, Hidx. cbn [unpack3 bind].
      rewrite (proj2 (shape_eqb_eq _ _) Hd).
      rewrite (proj2 (shape_eqb_neq _ _) Hne). reflexivity.
    + intros Hd Hm. eexists.
      apply ConcatWithPadding_eq; eassumption.
  - unfold ConcatWithPadding._ConcatWithPadding, index.
    rewrite He, Hidx. reflexivity.
Qed.

Lemma C8_concat_shape_errors_witness :
  let r := snd (ConcatWithPadding.forward 0%Z Examples.train_layer
                  (Examples.vec_e, NDArray [2; 1; 1] [9; 9]%Z,
                   Examples.mask_e)) in
  match nth_error (shape (NDArray [2; 1; 1] [9; 9]%Z)) 1 with
  | Some L2 =>
      (shape (NDArray [2; 1; 1] [9; 9]%Z) <> [1; L2; 1] ->
       r = Raise (ValueError
                    (DecoderVectorShape (shape (NDArray [2; 1; 1] [9; 9]%Z))
                       [1; L2; 1])))
      /\ (shape (NDArray [2; 1; 1] [9; 9]%Z) = [1; L2; 1] ->
          shape Examples.mask_e <> [1; 3] ->
          r = Raise (ValueError
                       (EncoderMaskShape (shape Examples.mask_e) [1; 3])))
      /\ (shape (NDArray [2; 1; 1] [9; 9]%Z) = [1; L2; 1] ->
          shape Examples.mask_e = [1; 3] ->
          exists out, r = Ok out)
  | None => r = Raise IndexError
  end.
Proof.
  apply (@C8_concat_shape_errors Z 0%Z Examples.train_layer
           Examples.vec_e (NDArray [2; 1; 1] [9; 9]%Z) Examples.mask_e 1 3 1).
  - discriminate.
  - reflexivity.
  - reflexivity.
Defined.

(** C8, as stated, fails: a decoder vector of shape (1,) matches no shape
    (1, L2, 1), yet the layer raises [IndexError], not a [ValueError] that
    cites the shapes. *)
Lemma C8_rank_one_decoder_raises_index_error :
  let r := snd (ConcatWithPadding.forward 0%Z Examples.train_layer
                  (Examples.vec_e, Examples.vec_d_flat, Examples.mask_e)) in
  (forall L2, shape (Examples.vec_d_flat) <> [1; L2; 1])
  /\ r = Raise IndexError
  /\ (forall m, r <> Raise (ValueError m)).
Proof.
  cbv zeta. repeat split.
  - intros L2. discriminate.
  - intros m. discriminate.
Qed.

(** C7 (as amended).  In train/eval mode, on a merged array of shape
    (B, L, H): when both token arrays have an axis 1, of sizes L1 and L2, the
    layer raises the [ValueError] that cites L, L1 and L2 if L is not
    L1 + L2, else the [ValueError] that cites the encoder tokens' shape and
    (B, L1) if they differ, else the one that cites the decoder tokens'
    shape and (B, L2) if they differ, and otherwise returns without raising.
    A token array with fewer than two axes raises [IndexError], from
    [tok.shape[1]], before any check. *)
Theorem C7_strip_shape_errors (T : Type) (self : layer)
    (vec_ed : ndarray T) (tok_e tok_d : ndarray Z) (B L H : nat) :
  _mode self <> "predict"%string -> state_ready self ->
  shape vec_ed = [B; L; H] ->
  let r := snd (StripFromConcatenateWithPadding.forward self
                  (vec_ed, tok_e, tok_d)) in
  match nth_error (shape tok_e) 1, nth_error (shape tok_d) 1 with
  | Some L1, Some L2 =>
      (L <> L1 + L2 -> r = Raise (ValueError (LengthMismatch L L1 L2)))
      /\ (L = L1 + L2 -> shape tok_e <> [B; L1] ->
          r = Raise (ValueError (EncoderTokensShape (shape tok_e) [B; L1])))
      /\ (L = L1 + L2 -> shape tok_e = [B; L1] -> shape tok_d <> [B; L2] ->
          r = Raise (ValueError (DecoderTokensShape (shape tok_d) [B; L2])))
      /\ (L = L1 + L2 -> shape tok_e = [B; L1] -> shape tok_d = [B; L2] ->
          exists out, r = Ok out)
  | _, _ => r = Raise IndexError
  end.
Proof.
  intros Hmode Hready Hed r. subst r.
  rewrite Strip_forward_train by assumption. cbn [snd].
  destruct (nth_error (shape tok_e) 1) as [L1|] eqn:H1;
    [destruct (nth_error (shape tok_d) 1) as [L2|] eqn:H2|].
  - repeat split.
    + intros Hne.
      unfold StripFromConcatenateWithPadding._StripFromConcatenateWithPadding,
        index.
      rewrite Hed, H1, H2. cbn [unpack3 bind].
      rewrite (proj2 (Nat.eqb_neq _ _) Hne). reflexivity.
    + intros HL Hne.
      unfold StripFromConcatenateWithPadding._StripFromConcatenateWithPadding,
        index.
      rewrite Hed, H1, H2. cbn [unpack3 bind].
      rewrite (proj2 (Nat.eqb_eq _ _) HL).
      rewrite (proj2 (shape_eqb_neq _ _) Hne). reflexivity.
    + intros HL He Hne.
      unfold StripFromConcatenateWithPadding._StripFromConcatenateWithPadding,
        index.
      rewrite Hed, H1, H2. cbn [unpack3 bind].
      rewrite (proj2 (Nat.eqb_eq _ _) HL).
      rewrite (proj2 (shape_eqb_eq _ _) He).
      rewrite (proj2 (shape_eqb_neq _ _) Hne). reflexivity.
    + intros HL He Hd. subst L. eexists.
      apply Strip_eq; eassumption.
  - unfold StripFromConcatenateWithPadding._StripFromConcatenateWithPadding,
      index.
    rewrite Hed, H1, H2. reflexivity.
  - unfold StripFromConcatenateWithPadding._StripFromConcatenateWithPadding,
      index.
    rewrite Hed, H1. reflexivity.
Qed.

Lemma C7_strip_shape_errors_witness :
  let r := snd (StripFromConcatenateWithPadding.forward Examples.train_layer
                  (NDArray [1; 5; 1] [5; 9; 8; 0; 0]%Z,
                   Examples.tok_e, Examples.tok_d)) in
  match nth_error (shape Examples.tok_e) 1,
        nth_error (shape Examples.tok_d) 1 with
  | Some L1, Some L2 =>
      (5 <> L1 + L2 -> r = Raise (ValueError (LengthMismatch 5 L1 L2)))
      /\ (5 = L1 + L2 -> shape Examples.tok_e <> [1; L1] ->
          r = Raise (ValueError
                       (EncoderTokensShape (shape Examples.tok_e) [1; L1])))
      /\ (5 = L1 + L2 -> shape Examples.tok_e = [1; L1] ->
          shape Examples.tok_d <> [1; L2] ->
          r = Raise (ValueError
                       (DecoderTokensShape (shape Examples.tok_d) [1; L2])))
      /\ (5 = L1 + L2 -> shape Examples.tok_e = [1; L1] ->
          shape Examples.tok_d = [1; L2] ->
          exists out, r = Ok out)
  | _, _ => r = Raise IndexError
  end.
Proof.
  apply (@C7_strip_shape_errors Z Examples.train_layer
           (NDArray [1; 5; 1] [5; 9; 8; 0; 0]%Z)
           Examples.tok_e Examples.tok_d 1 5 1).
  - discriminate.
  - reflexivity.
  - reflexivity.
Defined.

(** C7, as stated, fails: encoder token ids of shape (3,) match no shape
    (1, L1), yet the layer raises [IndexError], not a [ValueError]. *)
Lemma C7_rank_one_tokens_raise_index_error :
  let r := snd (StripFromConcatenateWithPadding.forward Examples.train_layer
                  (NDArray [1; 4; 1] [5; 9; 8; 0]%Z,
                   Examples.tok_e_flat, Examples.tok_d)) in
  (forall L1, shape Examples.tok_e_flat <> [1; L1])
  /\ r = Raise IndexError
  /\ (forall m, r <> Raise (ValueError m)).
Proof.
  cbv zeta. repeat split.
  - intros L1. discriminate.
  - intros m. discriminate.
Qed.

(** ** Predict mode: the first call and the later ones *)

Lemma run_fixed {I O : Type} (fwd : layer -> I -> layer * res O)
    (self : layer) (g : I -> res O) (calls : list I) :
  (forall x, fwd self x = (self, g x)) ->
  run fwd self calls = (self, map g calls).
Proof.
  intros Hfix. induction calls as [|x rest IH]; [reflexivity|].
  cbn [run map]. rewrite Hfix, IH. reflexivity.
Qed.

Section PredictMode.
Variable T : Type.
Variable zero : T.

(** [state_ready] holds after [init_weights_and_state] and is kept by every
    call of [forward], in every mode. *)
Lemma state_ready_init (self : layer) :
  state_ready (ConcatWithPadding.init_weights_and_state self)
  /\ state_ready (StripFromConcatenateWithPadding.init_weights_and_state self).
Proof. split; reflexivity. Qed.

Lemma state_ready_forward (self : layer)
    (x : ndarray T * ndarray T * ndarray Z)
    (x' : ndarray T * ndarray Z * ndarray Z) :
  state_ready self ->
  state_ready (fst (ConcatWithPadding.forward zero self x))
  /\ state_ready (fst (StripFromConcatenateWithPadding.forward self x')).
Proof.
  intros Hready. destruct x as [[vec_e vec_d] mask_e].
  destruct x' as [[vec_ed tok_e] tok_d].
  unfold ConcatWithPadding.forward, StripFromConcatenateWithPadding.forward,
    reshape.
  rewrite Hready. cbn [size_of fold_right Nat.mul Nat.add Nat.eqb].
  destruct (negb (_mode self =? "predict")%string
            || shape_is_empty (shape (state self))); split; exact Hready.
Qed.

Lemma Concat_first_call (self : layer)
    (x : ndarray T * ndarray T * ndarray Z) :
  ConcatWithPadding.forward zero
    (ConcatWithPadding.init_weights_and_state self) x
  = (called_once self,
     let '(vec_e, vec_d, mask_e) := x in
     ConcatWithPadding._ConcatWithPadding zero vec_e vec_d mask_e).
Proof.
  destruct x as [[vec_e vec_d] mask_e]. unfold ConcatWithPadding.forward.
  cbn [ConcatWithPadding.init_weights_and_state set_state state shape
       shape_is_empty].
  rewrite orb_true_r. reflexivity.
Qed.

Lemma Concat_later_call (self : layer)
    (x : ndarray T * ndarray T * ndarray Z) :
  _mode self = "predict"%string ->
  ConcatWithPadding.forward zero (called_once self) x
  = (called_once self, Ok (snd (fst x))).
Proof.
  intros Hmode. destruct x as [[vec_e vec_d] mask_e].
  unfold ConcatWithPadding.forward.
  cbn [called_once set_state _mode state shape shape_is_empty].
  rewrite Hmode. reflexivity.
Qed.

Lemma Strip_first_call (self : layer)
    (x : ndarray T * ndarray Z * ndarray Z) :
  StripFromConcatenateWithPadding.forward
    (StripFromConcatenateWithPadding.init_weights_and_state self) x
  = (called_once self,
     let '(vec_ed, tok_e, tok_d) := x in
     StripFromConcatenateWithPadding._StripFromConcatenateWithPadding
       vec_ed tok_e tok_d).
Proof.
  destruct x as [[vec_ed tok_e] tok_d].
  unfold StripFromConcatenateWithPadding.forward.
  cbn [StripFromConcatenateWithPadding.init_weights_and_state set_state
       state shape shape_is_empty].
  rewrite orb_true_r. reflexivity.
Qed.

Lemma Strip_later_call (self : layer)
    (x : ndarray T * ndarray Z * ndarray Z) :
  _mode self = "predict"%string ->
  StripFromConcatenateWithPadding.forward (called_once self) x
  = (called_once self, Ok (fst (fst x))).
Proof.
  intros Hmode. destruct x as [[vec_ed tok_e] tok_d].
  unfold StripFromConcatenateWithPadding.forward.
  cbn [called_once set_state _mode state shape shape_is_empty].
  rewrite Hmode. reflexivity.
Qed.

Lemma Concat_run (self : layer)
    (x : ndarray T * ndarray T * ndarray Z)
    (rest : list (ndarray T * ndarray T * ndarray Z)) :
  _mode self = "predict"%string ->
  run (ConcatWithPadding.forward zero)
    (ConcatWithPadding.init_weights_and_state self) (x :: rest)
  = (called_once self,
     (let '(vec_e, vec_d, mask_e) := x in
      ConcatWithPadding._ConcatWithPadding zero vec_e vec_d mask_e)
     :: map (fun y => Ok (snd (fst y))) rest).
Proof.
  intros Hmode. cbn [run]. rewrite Concat_first_call.
  rewrite (@run_fixed _ _ (ConcatWithPadding.forward zero) (called_once self)
             (fun y => Ok (snd (fst y))))
    by (intros y; apply Concat_later_call; exact Hmode).
  reflexivity.
Qed.

Lemma Strip_run (self : layer)
    (x : ndarray T * ndarray Z * ndarray Z)
    (rest : list (ndarray T * ndarray Z * ndarray Z)) :
  _mode self = "predict"%string ->
  run (@StripFromConcatenateWithPadding.forward T)
    (StripFromConcatenateWithPadding.init_weights_and_state self) (x :: rest)
  = (called_once self,
     (let '(vec_ed, tok_e, tok_d) := x in
      StripFromConcatenateWithPadding._StripFromConcatenateWithPadding
        vec_ed tok_e tok_d)
     :: map (fun y => Ok (fst (fst y))) rest).
Proof.
  intros Hmode. cbn [run]. rewrite Strip_first_call.
  rewrite (@run_fixed _ _ (@StripFromConcatenateWithPadding.forward T)
             (called_once self) (fun y => Ok (fst (fst y))))
    by (intros y; apply Strip_later_call; exact Hmode).
  reflexivity.
Qed.

End PredictMode.



(** C10.  On an instance of either layer in mode 'predict', no call after
    the first raises: each returns its input unchanged, without any shape
    check.  A merged array whose length 5 differs from L1 + L2 = 3 + 1 makes
    the first call of a fresh instance raise the length [ValueError], and is
    returned as it is by a call that is not the first; the same holds for a
    decoder vector with one axis only. *)
Theorem C10_predict_no_checks_after_first_call (T : Type) (zero : T)
    (self : layer)
    (x : ndarray T * ndarray T * ndarray Z)
    (rest : list (ndarray T * ndarray T * ndarray Z))
    (x' : ndarray T * ndarray Z * ndarray Z)
    (rest' : list (ndarray T * ndarray Z * ndarray Z)) :
  _mode self = "predict"%string ->
  tl (snd (run (ConcatWithPadding.forward zero)
             (ConcatWithPadding.init_weights_and_state self) (x :: rest)))
  = map (fun y => Ok (snd (fst y))) rest
  /\ tl (snd (run (@StripFromConcatenateWithPadding.forward T)
                (StripFromConcatenateWithPadding.init_weights_and_state self)
                (x' :: rest')))
     = map (fun y => Ok (fst (fst y))) rest'
  /\ Forall (fun r => is_ok r = true)
        (tl (snd (run (ConcatWithPadding.forward zero)
                    (ConcatWithPadding.init_weights_and_state self)
                    (x :: rest))))
  /\ Forall (fun r => is_ok r = true)
        (tl (snd (run (@StripFromConcatenateWithPadding.forward T)
                    (StripFromConcatenateWithPadding.init_weights_and_state
                       self)
                    (x' :: rest'))))
  /\ snd (run (@StripFromConcatenateWithPadding.forward Z)
            (StripFromConcatenateWithPadding.init_weights_and_state
               Examples.predict_layer)
            [(Examples.vec_ed_too_long, Examples.tok_e, Examples.tok_d);
             (Examples.vec_ed_too_long, Examples.tok_e, Examples.tok_d)])
     = [Raise (ValueError (LengthMismatch 5 3 1));
        Ok Examples.vec_ed_too_long]
  /\ snd (run (ConcatWithPadding.forward 0%Z)
            (ConcatWithPadding.init_weights_and_state Examples.predict_layer)
            [(Examples.vec_e, Examples.vec_d_flat, Examples.mask_e);
             (Examples.vec_e, Examples.vec_d_flat, Examples.mask_e)])
     = [Raise IndexError; Ok Examples.vec_d_flat].
Proof.
  intros Hmode.
  rewrite Concat_run, Strip_run by exact Hmode. cbn [snd tl].
  repeat split.
  - apply Forall_forall. intros r Hr.
    apply in_map_iff in Hr. destruct Hr as [y [<- _]]. reflexivity.
  - apply Forall_forall. intros r Hr.
    apply in_map_iff in Hr. destruct Hr as [y [<- _]]. reflexivity.
Qed.

Lemma C10_predict_no_checks_after_first_call_witness :
  tl (snd (run (ConcatWithPadding.forward 0%Z)
             (ConcatWithPadding.init_weights_and_state Examples.predict_layer)
             ((Examples.vec_e, Examples.vec_d, Examples.mask_e)
              :: [(Examples.vec_e, Examples.vec_d_flat, Examples.mask_e)])))
  = [Ok Examples.vec_d_flat].
Proof.
  apply (@C10_predict_no_checks_after_first_call Z 0%Z
           Examples.predict_layer
           (Examples.vec_e, Examples.vec_d, Examples.mask_e)
           [(Examples.vec_e, Examples.vec_d_flat, Examples.mask_e)]
           (Examples.vec_ed_too_long, Examples.tok_e, Examples.tok_d)
           [(Examples.vec_ed_too_long, Examples.tok_e, Examples.tok_d)]).
  reflexivity.
Defined.

(** ** The recursive builder of reversible stacks *)

Section ForgetProofs.
Variable block : Type.
Variable dim : Type.
Import Terraformer.

Lemma forget_none (layers : list block) (d_model : dim) (forget_dense : bool) :
  _ReversibleSerialForget layers d_model None forget_dense
  = ReversibleSerial dim layers.
Proof. simp _ReversibleSerialForget. reflexivity. Qed.

Lemma forget_zero (layers : list block) (d_model : dim) (forget_dense : bool) :
  _ReversibleSerialForget layers d_model (Some 0) forget_dense
  = ReversibleSerial dim layers.
Proof. simp _ReversibleSerialForget. reflexivity. Qed.

Lemma forget_short (layers : list block) (d_model : dim) (n : nat)
    (forget_dense : bool) :
  length layers <= n + 1 ->
  _ReversibleSerialForget layers d_model (Some n) forget_dense
  = ReversibleSerial dim layers.
Proof.
  intros Hlen. destruct n as [|k]; [apply forget_zero|].
  simp _ReversibleSerialForget.
  destruct (le_lt_dec (length layers) (S k + 1)); [reflexivity|lia].
Qed.

Lemma forget_long (layers : list block) (d_model : dim) (n : nat)
    (forget_dense : bool) :
  0 < n -> n + 1 < length layers ->
  _ReversibleSerialForget layers d_model (Some n) forget_dense
  = Serial [ReversibleSerial dim (firstn n layers);
            forgetting_layer block d_model forget_dense;
            _ReversibleSerialForget (skipn n layers) d_model (Some n)
                                    forget_dense].
Proof.
  intros Hn Hlen. destruct n as [|k]; [lia|].
  remember (_ReversibleSerialForget (skipn (S k) layers) d_model (Some (S k))
              forget_dense) as rest eqn:Hrest.
  simp _ReversibleSerialForget.
  destruct (le_lt_dec (length layers) (S k + 1)); [lia|].
  cbn. rewrite Hrest. reflexivity.
Qed.

Lemma forgetting_layer_counts (d_model : dim) (forget_dense : bool) :
  forgetting_blocks (forgetting_layer block d_model forget_dense) = 1
  /\ reversible_groups (forgetting_layer block d_model forget_dense) = [].
Proof. destruct forget_dense; split; reflexivity. Qed.

(** The shape of the stack for a period [n > 0]: the reversible groups are
    the list of layers cut in runs of [n], the last run taking up to [n + 1]
    layers, with one forgetting block between consecutive groups. *)
Lemma forget_structure (d_model : dim) (n : nat) (forget_dense : bool) :
  0 < n ->
  forall (m : nat) (layers : list block),
    length layers <= m ->
    let r := _ReversibleSerialForget layers d_model (Some n) forget_dense in
    concat (reversible_groups r) = layers
    /\ forgetting_blocks r + 1 = length (reversible_groups r)
    /\ Forall (fun g => length g = n) (removelast (reversible_groups r))
    /\ length (last (reversible_groups r) []) <= n + 1
    /\ (forgetting_blocks r = 0 <-> length layers <= n + 1).
Proof.
  intros Hn m. induction m as [|m IH]; intros layers Hm r; subst r.
  - rewrite forget_short by lia. cbn.
    rewrite app_nil_r. repeat split; auto; lia.
  - destruct (le_lt_dec (length layers) (n + 1)) as [Hshort|Hlong].
    + rewrite forget_short by exact Hshort. cbn.
      rewrite app_nil_r. repeat split; auto; lia.
    + rewrite forget_long by assumption.
      destruct (forgetting_layer_counts d_model forget_dense) as [Hfb Hfg].
      assert (Hrest : length (skipn n layers) <= m)
        by (rewrite length_skipn; lia).
      destruct (IH (skipn n layers) Hrest) as (Hc & Hb & Hall & Hlast & _).
      set (rest := _ReversibleSerialForget (skipn n layers) d_model (Some n)
                     forget_dense) in *.
      cbn [reversible_groups forgetting_blocks]. rewrite Hfb, Hfg.
      cbn [app]. rewrite app_nil_r, Nat.add_0_r.
      destruct (reversible_groups rest) as [|g gs] eqn:Hg;
        [cbn [length] in Hb; lia|].
      repeat split.
      * cbn [concat]. cbn [concat] in Hc. rewrite Hc. apply firstn_skipn.
      * cbn [length] in *. lia.
      * cbn [removelast]. constructor; [|exact Hall].
        rewrite length_firstn. lia.
      * exact Hlast.
      * lia.
      * lia.
Qed.

End ForgetProofs.

(** C9.  [_ReversibleSerialForget] returns the plain reversible stack when
    [n_layers] is [None] or zero, or when there are at most [n_layers + 1]
    layers; in particular a stack of exactly [n_layers + 1] layers has no
    forgetting block.  With more layers it returns the first [n_layers] of
    them as a reversible group, then the forgetting block (average, dense
    projection and duplicate when [forget_dense], a plain select otherwise),
    then the stack built in the same way from the remaining layers.  Hence,
    for a period [n > 0], the layers are cut in groups of [n] with the last
    group holding up to [n + 1], one forgetting block sits between
    consecutive groups, and there is none exactly when there are at most
    [n + 1] layers. *)
Theorem C9_forget_only_beyond_period_plus_one (block dim : Type)
    (layers : list block) (d_model : dim) (n : nat) (forget_dense : bool) :
  let build := fun n_layers =>
    Terraformer._ReversibleSerialForget layers d_model n_layers forget_dense in
  build None = Terraformer.ReversibleSerial dim layers
  /\ build (Some 0) = Terraformer.ReversibleSerial dim layers
  /\ (length layers <= n + 1 ->
      build (Some n) = Terraformer.ReversibleSerial dim layers)
  /\ (length layers = n + 1 ->
      Terraformer.forgetting_blocks (build (Some n)) = 0)
  /\ (0 < n -> n + 1 < length layers ->
      build (Some n)
      = Terraformer.Serial
          [Terraformer.ReversibleSerial dim (firstn n layers);
           (if forget_dense then
              Terraformer.Serial
                [Terraformer.XYAvg block dim;
                 Terraformer.Dense block d_model;
                 Terraformer.Dup block dim]
            else Terraformer.Select block dim [0; 1]);
           Terraformer._ReversibleSerialForget (skipn n layers) d_model
             (Some n) forget_dense])
  /\ (0 < n ->
      concat (Terraformer.reversible_groups (build (Some n))) = layers
      /\ Terraformer.forgetting_blocks (build (Some n)) + 1
         = length (Terraformer.reversible_groups (build (Some n)))
      /\ Forall (fun g => length g = n)
           (removelast (Terraformer.reversible_groups (build (Some n))))
      /\ length (last (Terraformer.reversible_groups (build (Some n))) [])
         <= n + 1
      /\ (Terraformer.forgetting_blocks (build (Some n)) = 0
          <-> length layers <= n + 1)).
Proof.
  cbv zeta. split; [apply forget_none|].
  split; [apply forget_zero|].
  split; [apply forget_short|].
  split; [intros Hlen; rewrite forget_short by lia; reflexivity|].
  split.
  - intros Hn Hlen. rewrite forget_long by assumption.
    destruct forget_dense; reflexivity.
  - intros Hn.
    apply (@forget_structure block dim d_model n forget_dense Hn
             (length layers) layers (le_n _)).
Qed.

Lemma C9_forget_only_beyond_period_plus_one_witness :
  Terraformer._ReversibleSerialForget [1; 2; 3] 512%Z (Some 2) true
  = Terraformer.ReversibleSerial Z [1; 2; 3]
  /\ Terraformer._ReversibleSerialForget [1; 2; 3; 4] 512%Z (Some 2) true
     = Terraformer.Serial
         [Terraformer.ReversibleSerial Z [1; 2];
          Terraformer.Serial
            [Terraformer.XYAvg nat Z;
             Terraformer.Dense nat 512%Z;
             Terraformer.Dup nat Z];
          Terraformer._ReversibleSerialForget [3; 4] 512%Z (Some 2) true].
Proof.
  split.
  - apply (@C9_forget_only_beyond_period_plus_one nat Z [1; 2; 3] 512%Z 2
             true).
    simpl. lia.
  - apply (@C9_forget_only_beyond_period_plus_one nat Z [1; 2; 3; 4] 512%Z 2
             true); simpl; lia.
Defined.

(** ** The guard against padding in predict mode *)

Section GuardProofs.
Variables prec emax : Z.
Import Terraformer.

Lemma guard_all_nonzero (x : ndarray spec_float) (y : ndarray Z) :
  all y = true ->
  predict_guard prec emax "predict" x y = (x, y).
Proof.
  intros Hall. unfold predict_guard, _ConvertToNaNsOnAnyZero, _convert_to_nans.
  cbn [String.eqb Ascii.eqb Bool.eqb andb]. rewrite Hall. reflexivity.
Qed.

Lemma guard_any_zero (x : ndarray spec_float) (y : ndarray Z) :
  all y = false ->
  predict_guard prec emax "predict" x y
  = (NDArray (shape x)
       (map (fun v => SFdiv prec emax v float_zero) (data x)), y).
Proof.
  intros Hall. unfold predict_guard, _ConvertToNaNsOnAnyZero, _convert_to_nans.
  cbn [String.eqb Ascii.eqb Bool.eqb andb]. rewrite Hall. reflexivity.
Qed.

Lemma guard_other_modes (mode : string) (x : ndarray spec_float)
    (y : ndarray Z) :
  mode <> "predict"%string -> predict_guard prec emax mode x y = (x, y).
Proof.
  intros Hmode. unfold predict_guard.
  apply String.eqb_neq in Hmode. rewrite Hmode. reflexivity.
Qed.

Lemma divide_by_zero_cases (v : spec_float) :
  SFdiv prec emax v float_zero
  = match v with
    | S754_zero _ => S754_nan
    | S754_nan => S754_nan
    | S754_infinity s => S754_infinity s
    | S754_finite s _ _ => S754_infinity s
    end.
Proof. destruct v as [s|s| |s m e]; cbn; rewrite ?xorb_false_r; reflexivity. Qed.

End GuardProofs.

(** C3: the code at the failing input.  In predict mode, with a zero in the
    mask, the guard returns [x / 0.] elementwise and raises nothing; the
    embedding value 1.0 becomes +infinity, which is not NaN.  In every
    binary format a finite nonzero or infinite value becomes an infinity of
    the same sign, and only zeros and NaNs become NaN.  With no zero in the
    mask, and outside predict mode, the embeddings pass through unchanged. *)
Theorem C3_guard_divides_by_zero :
  fst (Terraformer.predict_guard 24 128 "predict"
         Examples.embedding Examples.mask_padded)
  = NDArray [1; 1; 1] [S754_infinity false]
  /\ Terraformer.is_nan (S754_infinity false) = false
  /\ (forall prec emax x y,
        all y = false ->
        Terraformer.predict_guard prec emax "predict" x y
        = (NDArray (shape x)
             (map (fun v => SFdiv prec emax v Terraformer.float_zero)
                (data x)), y))
  /\ (forall prec emax v,
        Terraformer.is_nan (SFdiv prec emax v Terraformer.float_zero) = true
        <-> (exists s, v = S754_zero s) \/ v = S754_nan)
  /\ (forall prec emax x y,
        all y = true ->
        Terraformer.predict_guard prec emax "predict" x y = (x, y))
  /\ (forall prec emax mode x y,
        mode <> "predict"%string ->
        Terraformer.predict_guard prec emax mode x y = (x, y)).
Proof.
  split; [reflexivity|]. split; [reflexivity|].
  split; [intros; apply guard_any_zero; assumption|].
  split.
  - intros prec emax v. rewrite divide_by_zero_cases.
    destruct v as [s|s| |s m e]; cbn; split.
    + intros _. left. exists s. reflexivity.
    + reflexivity.
    + discriminate.
    + intros [[s' Hs]|Hn]; discriminate.
    + intros _. right. reflexivity.
    + reflexivity.
    + discriminate.
    + intros [[s' Hs]|Hn]; discriminate.
  - split; [intros; apply guard_all_nonzero; assumption|].
    intros; apply guard_other_modes; assumption.
Qed.

(** * Further properties *)

(** ** The two layers on any mask and any token ids *)

Lemma blocks_ext {A : Type} (h n : nat) (l l' : list A) :
  length l = n * h -> length l' = n * h ->
  (forall p, p < n -> block h l p = block h l' p) ->
  l = l'.
Proof.
  intros Hl Hl' Hb.
  rewrite <- (concat_blocks h n l Hl), <- (concat_blocks h n l' Hl').
  f_equal. apply map_ext_in. intros p Hp. apply in_seq in Hp.
  apply Hb. lia.
Qed.

Lemma data_item {A : Type} (a : ndarray A) (n : nat) (s : list nat) (i : nat) :
  shape a = n :: s -> data (item a i) = block (size_of s) (data a) i.
Proof. intros Hs. unfold item. rewrite Hs. reflexivity. Qed.

Lemma block_of_item {A : Type} (a : ndarray A) (B L H b p : nat) :
  shape a = [B; L; H] ->
  data (item (item a b) p) = block H (data (item a b)) p.
Proof. intros Hs. rewrite (@item_item A a B L H b p Hs). reflexivity. Qed.

(** X1.  Whatever integers the mask holds, [ConcatWithPadding] in
    train/eval mode returns a well-formed (B, L1+L2, H) array in which every
    row carries the whole decoder row, as one run that starts at an index
    [s] of at most L1; every position outside that run holds the encoder
    vector of the position below L1 and the zero vector from L1 on. *)
Theorem X1_concat_keeps_decoder_row (T : Type) (zero : T) (self : layer)
    (vec_e vec_d : ndarray T) (mask_e : ndarray Z) (B L1 L2 H : nat) :
  _mode self <> "predict"%string -> state_ready self ->
  shape vec_e = [B; L1; H] -> shape vec_d = [B; L2; H] ->
  shape mask_e = [B; L1] ->
  well_formed vec_e -> well_formed vec_d ->
  exists out,
    snd (ConcatWithPadding.forward zero self (vec_e, vec_d, mask_e)) = Ok out
    /\ shape out = [B; L1 + L2; H]
    /\ well_formed out
    /\ forall b, b < B ->
         exists s,
           s <= L1
           /\ (forall q, q < L2 ->
                 item (item out b) (s + q) = item (item vec_d b) q)
           /\ (forall p, p < s \/ s + L2 <= p -> p < L1 ->
                 item (item out b) p = item (item vec_e b) p)
           /\ (forall p, s + L2 <= p -> L1 <= p -> p < L1 + L2 ->
                 item (item out b) p = NDArray [H] (repeat zero H)).
Proof.
  intros Hmode Hready He Hd Hm Hwe Hwd.
  destruct (ConcatWithPadding_items zero mask_e He Hd Hm Hwe Hwd)
    as (out & Hout & Hshape & Hwf & Hitems).
  exists out.
  rewrite ConcatWithPadding_forward_train by assumption. cbn [snd].
  repeat split; try assumption.
  intros b Hb.
  set (s := start_index (sum_int32 (item mask_e b)) (L1 + L2) L2).
  assert (Hs : s + L2 <= L1 + L2) by (apply start_index_le; lia).
  exists s. repeat split.
  - lia.
  - intros q Hq. rewrite Hitems by lia. cbv zeta. fold s.
    rewrite (@item_item _ vec_d B L2 H b q Hd).
    destruct (Nat.leb_spec s (s + q)); [|lia].
    destruct (Nat.ltb_spec (s + q) (s + L2)); [|lia].
    cbn [andb]. replace (s + q - s) with q by lia. reflexivity.
  - intros p Hout' Hp. rewrite Hitems by lia. cbv zeta. fold s.
    rewrite (@item_item _ vec_e B L1 H b p He).
    replace ((s <=? p) && (p <? s + L2)) with false.
    + destruct (Nat.ltb_spec p L1); [reflexivity|lia].
    + symmetry. apply andb_false_iff.
      destruct Hout' as [Hlt|Hge];
        [left; apply Nat.leb_gt; lia|right; apply Nat.ltb_ge; lia].
  - intros p Hp1 Hp2 Hp3. rewrite Hitems by lia. cbv zeta. fold s.
    replace ((s <=? p) && (p <? s + L2)) with false
      by (symmetry; apply andb_false_iff; right; apply Nat.ltb_ge; lia).
    destruct (Nat.ltb_spec p L1); [lia|reflexivity].
Qed.

Lemma X1_concat_keeps_decoder_row_witness :
  exists out,
    snd (ConcatWithPadding.forward 0%Z Examples.train_layer
           (Examples2.vec_e, Examples2.vec_d,
            NDArray [2; 2] [7; -3; 0; 9]%Z)) = Ok out
    /\ shape out = [2; 2 + 1; 2]
    /\ well_formed out
    /\ forall b, b < 2 ->
         exists s,
           s <= 2
           /\ (forall q, q < 1 ->
                 item (item out b) (s + q) = item (item Examples2.vec_d b) q)
           /\ (forall p, p < s \/ s + 1 <= p -> p < 2 ->
                 item (item out b) p = item (item Examples2.vec_e b) p)
           /\ (forall p, s + 1 <= p -> 2 <= p -> p < 2 + 1 ->
                 item (item out b) p = NDArray [2] (repeat 0%Z 2)).
Proof.
  apply (@X1_concat_keeps_decoder_row Z 0%Z Examples.train_layer
           Examples2.vec_e Examples2.vec_d
           (NDArray [2; 2] [7; -3; 0; 9]%Z) 2 2 1 2).
  - discriminate.
  - reflexivity.
  - reflexivity.
  - reflexivity.
  - reflexivity.
  - reflexivity.
  - reflexivity.
Defined.

(** X2.  Whatever the token ids hold, [StripFromConcatenateWithPadding] in
    train/eval mode returns a well-formed (B, L2, H) array whose every row is
    a run of L2 consecutive vectors of the merged row, starting at an index
    of at most L1: it never reads past the end of the merged row. *)
Theorem X2_strip_stays_in_bounds (T : Type) (self : layer)
    (vec_ed : ndarray T) (tok_e tok_d : ndarray Z) (B L1 L2 H : nat) :
  _mode self <> "predict"%string -> state_ready self ->
  shape vec_ed = [B; L1 + L2; H] -> shape tok_e = [B; L1] ->
  shape tok_d = [B; L2] ->
  well_formed vec_ed ->
  exists out,
    snd (StripFromConcatenateWithPadding.forward self (vec_ed, tok_e, tok_d))
    = Ok out
    /\ shape out = [B; L2; H]
    /\ well_formed out
    /\ forall b, b < B ->
         exists s,
           s <= L1
           /\ forall q, q < L2 ->
                item (item out b) q = item (item vec_ed b) (s + q).
Proof.
  intros Hmode Hready Hed He Hd Hwf.
  destruct (Strip_items tok_e tok_d Hed He Hd Hwf)
    as (out & Hout & Hshape & Hwfo & Hitems).
  exists out.
  rewrite Strip_forward_train by assumption. cbn [snd].
  repeat split; try assumption.
  intros b Hb.
  exists (start_index (sum_int32 (not_equal_zero (item tok_e b))) (L1 + L2) L2).
  split.
  - pose proof (@start_index_le (sum_int32 (not_equal_zero (item tok_e b)))
                  (L1 + L2) L2).
    lia.
  - intros q Hq. apply Hitems; assumption.
Qed.

Lemma X2_strip_stays_in_bounds_witness :
  exists out,
    snd (StripFromConcatenateWithPadding.forward Examples.train_layer
           (NDArray [1; 3 + 1; 1] [5; 9; 8; 0]%Z,
            Examples.tok_e, Examples.tok_d))
    = Ok out
    /\ shape out = [1; 1; 1]
    /\ well_formed out
    /\ forall b, b < 1 ->
         exists s,
           s <= 3
           /\ forall q, q < 1 ->
                item (item out b) q
                = item (item (NDArray [1; 3 + 1; 1] [5; 9; 8; 0]%Z) b) (s + q).
Proof.
  apply (@X2_strip_stays_in_bounds Z Examples.train_layer
           (NDArray [1; 3 + 1; 1] [5; 9; 8; 0]%Z)
           Examples.tok_e Examples.tok_d 1 3 1 1).
  - discriminate.
  - reflexivity.
  - reflexivity.
  - reflexivity.
  - reflexivity.
  - reflexivity.
Defined.

Lemma sum_ones (l : list Z) :
  (forall v, In v l -> v = 1%Z) ->
  fold_right Z.add 0%Z l = Z.of_nat (length l).
Proof.
  induction l as [|v l IH]; intros Hl; [reflexivity|].
  cbn [fold_right length]. rewrite IH by (intros w Hw; apply Hl; right; exact Hw).
  rewrite (Hl v) by (left; reflexivity). lia.
Qed.

(** Two well-formed arrays of one shape (B, L, H) with the same vectors hold
    the same data. *)
Lemma array_ext {A : Type} (a a' : ndarray A) (B L H : nat) :
  shape a = [B; L; H] -> shape a' = [B; L; H] ->
  well_formed a -> well_formed a' ->
  (forall b p, b < B -> p < L -> item (item a b) p = item (item a' b) p) ->
  a = a'.
Proof.
  intros Hs Hs' Hwf Hwf' Hitems.
  assert (Hdata : data a = data a').
  { apply blocks_ext with (h := size_of [L; H]) (n := B).
    - rewrite Hwf, Hs. reflexivity.
    - rewrite Hwf', Hs'. reflexivity.
    - intros b Hb.
      rewrite <- (data_item a b Hs), <- (data_item a' b Hs').
      apply blocks_ext with (h := H) (n := L).
      + rewrite (length_item_data Hwf Hs Hb). apply size_of_2.
      + rewrite (length_item_data Hwf' Hs' Hb). apply size_of_2.
      + intros p Hp.
        rewrite <- (block_of_item a b p Hs), <- (block_of_item a' b p Hs').
        rewrite Hitems by assumption. reflexivity. }
  destruct a as [sa da], a' as [sa' da']. cbn in *. congruence.
Qed.

(** X3.  With a mask of ones only (no padding), [ConcatWithPadding] in
    train/eval mode is plain concatenation along the length axis: every row
    of the result is the encoder row followed by the decoder row. *)
Theorem X3_concat_without_padding (T : Type) (zero : T) (self : layer)
    (vec_e vec_d : ndarray T) (mask_e : ndarray Z) (B L1 L2 H : nat) :
  _mode self <> "predict"%string -> state_ready self ->
  shape vec_e = [B; L1; H] -> shape vec_d = [B; L2; H] ->
  shape mask_e = [B; L1] ->
  well_formed vec_e -> well_formed vec_d -> well_formed mask_e ->
  (forall v, In v (data mask_e) -> v = 1%Z) ->
  (Z.of_nat L1 < 2 ^ 31)%Z ->
  exists out,
    snd (ConcatWithPadding.forward zero self (vec_e, vec_d, mask_e)) = Ok out
    /\ shape out = [B; L1 + L2; H]
    /\ forall b, b < B ->
         data (item out b) = data (item vec_e b) ++ data (item vec_d b).
Proof.
  intros Hmode Hready He Hd Hm Hwe Hwd Hwm Hones Hsmall.
  destruct (ConcatWithPadding_items zero mask_e He Hd Hm Hwe Hwd)
    as (out & Hout & Hshape & Hwf & Hitems).
  exists out.
  rewrite ConcatWithPadding_forward_train by assumption. cbn [snd].
  repeat split; try assumption.
  intros b Hb.
  assert (Hle : length (data (item vec_e b)) = L1 * H)
    by (rewrite (length_item_data Hwe He Hb); apply size_of_2).
  assert (Hld : length (data (item vec_d b)) = L2 * H)
    by (rewrite (length_item_data Hwd Hd Hb); apply size_of_2).
  assert (Hs : start_index (sum_int32 (item mask_e b)) (L1 + L2) L2 = L1).
  { unfold sum_int32. rewrite sum_ones.
    - rewrite (length_item_data Hwm Hm Hb), size_of_1.
      rewrite int32_small by lia.
      rewrite start_index_in_range by lia. apply Nat2Z.id.
    - intros v Hv. apply Hones. unfold item in Hv. cbn [data] in Hv.
      eapply In_block. exact Hv. }
  apply blocks_ext with (h := H) (n := L1 + L2).
  - rewrite (length_item_data Hwf Hshape Hb). apply size_of_2.
  - rewrite length_app, Hle, Hld. lia.
  - intros p Hp.
    rewrite <- (block_of_item out b p Hshape).
    rewrite Hitems by assumption. cbn [data]. cbv zeta. rewrite Hs.
    destruct (Nat.ltb_spec p L1) as [Hlt|Hge].
    + destruct (Nat.leb_spec L1 p); [lia|]. cbn [andb].
      symmetry. apply block_app_l with (n := L1); assumption.
    + destruct (Nat.leb_spec L1 p); [|lia].
      destruct (Nat.ltb_spec p (L1 + L2)); [|lia]. cbn [andb].
      symmetry. apply block_app_r with (n := L1); assumption.
Qed.

Lemma X3_concat_without_padding_witness :
  exists out,
    snd (ConcatWithPadding.forward 0%Z Examples.train_layer
           (Examples2.vec_e, Examples2.vec_d, Examples2.mask_ones)) = Ok out
    /\ shape out = [2; 2 + 1; 2]
    /\ forall b, b < 2 ->
         data (item out b)
         = data (item Examples2.vec_e b) ++ data (item Examples2.vec_d b).
Proof.
  apply (@X3_concat_without_padding Z 0%Z Examples.train_layer
           Examples2.vec_e Examples2.vec_d Examples2.mask_ones 2 2 1 2).
  - discriminate.
  - reflexivity.
  - reflexivity.
  - reflexivity.
  - reflexivity.
  - reflexivity.
  - reflexivity.
  - reflexivity.
  - simpl. intros v [<-|[<-|[<-|[<-|[]]]]]; reflexivity.
  - reflexivity.
Defined.

(** X4.  When one side is empty, [ConcatWithPadding] in train/eval mode
    returns the other side unchanged, whatever the mask holds: the encoder
    vectors when there is no decoder position (L2 = 0), the decoder vectors
    when there is no encoder position (L1 = 0). *)
Theorem X4_concat_with_an_empty_side (T : Type) (zero : T) (self : layer)
    (vec_e vec_d : ndarray T) (mask_e : ndarray Z) (B L1 L2 H : nat) :
  _mode self <> "predict"%string -> state_ready self ->
  shape vec_e = [B; L1; H] -> shape vec_d = [B; L2; H] ->
  shape mask_e = [B; L1] ->
  well_formed vec_e -> well_formed vec_d ->
  (L2 = 0 ->
   snd (ConcatWithPadding.forward zero self (vec_e, vec_d, mask_e))
   = Ok vec_e)
  /\ (L1 = 0 ->
      snd (ConcatWithPadding.forward zero self (vec_e, vec_d, mask_e))
      = Ok vec_d).
Proof.
  intros Hmode Hready He Hd Hm Hwe Hwd.
  destruct (ConcatWithPadding_items zero mask_e He Hd Hm Hwe Hwd)
    as (out & Hout & Hshape & Hwf & Hitems).
  rewrite ConcatWithPadding_forward_train by assumption. cbn [snd].
  rewrite Hout. split; intros Hzero; f_equal; subst.
  - rewrite Nat.add_0_r in Hshape, Hitems.
    apply (array_ext Hshape He Hwf Hwe). intros b p Hb Hp.
    rewrite Hitems by assumption. cbv zeta.
    rewrite (@item_item _ vec_e B L1 H b p He).
    replace ((start_index (sum_int32 (item mask_e b)) L1 0 <=? p)
             && (p <? start_index (sum_int32 (item mask_e b)) L1 0 + 0))
      with false.
    + destruct (Nat.ltb_spec p L1); [reflexivity|lia].
    + symmetry. apply andb_false_iff.
      destruct (Nat.leb_spec (start_index (sum_int32 (item mask_e b)) L1 0) p);
        [right; apply Nat.ltb_ge; lia|left; reflexivity].
  - cbn [Nat.add] in Hshape, Hitems.
    apply (array_ext Hshape Hd Hwf Hwd). intros b p Hb Hp.
    rewrite Hitems by assumption. cbv zeta.
    rewrite (@item_item _ vec_d B L2 H b p Hd).
    pose proof (@start_index_le (sum_int32 (item mask_e b)) L2 L2 (le_n _))
      as Hs.
    assert (Hs0 : start_index (sum_int32 (item mask_e b)) L2 L2 = 0) by lia.
    rewrite Hs0. cbn [Nat.leb Nat.add]. rewrite Nat.sub_0_r.
    destruct (Nat.ltb_spec p L2); [reflexivity|lia].
Qed.

Lemma X4_concat_with_an_empty_side_witness :
  snd (ConcatWithPadding.forward 0%Z Examples.train_layer
         (Examples2.vec_e, Examples2.no_decoder, Examples2.mask_e))
  = Ok Examples2.vec_e.
Proof.
  refine (proj1
            (@X4_concat_with_an_empty_side Z 0%Z Examples.train_layer
               Examples2.vec_e Examples2.no_decoder Examples2.mask_e 2 2 0 2
               _ _ _ _ _ _ _) _);
    try reflexivity; discriminate.
Defined.

(** ** The two layers in sequence *)

(** Stripping undoes concatenating as soon as, in every row, both layers
    compute the same index. *)
Lemma strip_after_concat (T : Type) (zero : T)
    (vec_e vec_d : ndarray T) (mask_e tok_e tok_d : ndarray Z)
    (B L1 L2 H : nat) :
  shape vec_e = [B; L1; H] -> shape vec_d = [B; L2; H] ->
  shape mask_e = [B; L1] -> shape tok_e = [B; L1] -> shape tok_d = [B; L2] ->
  well_formed vec_e -> well_formed vec_d ->
  (forall b, b < B ->
     sum_int32 (item mask_e b) = sum_int32 (not_equal_zero (item tok_e b))) ->
  exists out,
    ConcatWithPadding._ConcatWithPadding zero vec_e vec_d mask_e = Ok out
    /\ StripFromConcatenateWithPadding._StripFromConcatenateWithPadding
         out tok_e tok_d = Ok vec_d.
Proof.
  intros He Hd Hm Hte Htd Hwe Hwd Hidx.
  destruct (ConcatWithPadding_items zero mask_e He Hd Hm Hwe Hwd)
    as (out & Hout & Hshape & Hwf & Hitems).
  exists out. split; [exact Hout|].
  destruct (Strip_items tok_e tok_d Hshape Hte Htd Hwf)
    as (back & Hback & Hbshape & Hbwf & Hbitems).
  rewrite Hback. f_equal.
  apply (array_ext Hbshape Hd Hbwf Hwd). intros b q Hb Hq.
  rewrite Hbitems by assumption.
  set (s := start_index (sum_int32 (not_equal_zero (item tok_e b)))
              (L1 + L2) L2).
  assert (Hs : s + L2 <= L1 + L2) by (apply start_index_le; lia).
  rewrite Hitems by lia. cbv zeta. rewrite (Hidx b Hb). fold s.
  rewrite (@item_item _ vec_d B L2 H b q Hd).
  destruct (Nat.leb_spec s (s + q)); [|lia].
  destruct (Nat.ltb_spec (s + q) (s + L2)); [|lia].
  cbn [andb]. replace (s + q - s) with q by lia. reflexivity.
Qed.

Lemma indicator_of_zero_one (l : list Z) :
  (forall v, In v l -> v = 0%Z \/ v = 1%Z) ->
  map (fun t => if (t =? 0)%Z then 0%Z else 1%Z) (map int32 l) = l.
Proof.
  induction l as [|v l IH]; intros Hl; [reflexivity|].
  cbn [map]. rewrite IH by (intros w Hw; apply Hl; right; exact Hw).
  destruct (Hl v (or_introl eq_refl)) as [->| ->]; reflexivity.
Qed.

(** X5.  In its vector-input mode terraformer.py casts the mask with
    [_AsTokenIDs] and hands it on wherever encoder token ids are expected
    (lines 282-290).  For the two layers modelled here and a 0/1 mask this is
    sound in train/eval mode: stripping with the cast mask what was
    concatenated under the mask gives the decoder vectors back. *)
Theorem X5_cast_mask_serves_as_token_ids (T : Type) (zero : T)
    (concat_layer strip_layer : layer)
    (vec_e vec_d : ndarray T) (mask_e tok_d : ndarray Z) (B L1 L2 H : nat) :
  _mode concat_layer <> "predict"%string -> state_ready concat_layer ->
  _mode strip_layer <> "predict"%string -> state_ready strip_layer ->
  shape vec_e = [B; L1; H] -> shape vec_d = [B; L2; H] ->
  shape mask_e = [B; L1] -> shape tok_d = [B; L2] ->
  well_formed vec_e -> well_formed vec_d ->
  (forall v, In v (data mask_e) -> v = 0%Z \/ v = 1%Z) ->
  exists vec_ed,
    snd (ConcatWithPadding.forward zero concat_layer (vec_e, vec_d, mask_e))
    = Ok vec_ed
    /\ snd (StripFromConcatenateWithPadding.forward strip_layer
              (vec_ed, Axes._AsTokenIDs mask_e, tok_d)) = Ok vec_d.
Proof.
  intros Hmc Hrc Hms Hrs He Hd Hm Htd Hwe Hwd H01.
  rewrite ConcatWithPadding_forward_train by assumption. cbn [snd].
  assert (Hidx : forall b, b < B ->
            sum_int32 (item mask_e b)
            = sum_int32 (not_equal_zero (item (Axes._AsTokenIDs mask_e) b))).
  { intros b Hb. unfold sum_int32, not_equal_zero, item, Axes._AsTokenIDs.
    cbn [shape data]. rewrite block_map, indicator_of_zero_one; [reflexivity|].
    intros v Hv. apply H01. eapply In_block. exact Hv. }
  destruct (@strip_after_concat T zero vec_e vec_d mask_e
              (Axes._AsTokenIDs mask_e) tok_d B L1 L2 H
              He Hd Hm Hm Htd Hwe Hwd Hidx) as (out & Hout & Hback).
  exists out. split; [exact Hout|].
  rewrite Strip_forward_train by assumption. exact Hback.
Qed.

Lemma X5_cast_mask_serves_as_token_ids_witness :
  exists vec_ed,
    snd (ConcatWithPadding.forward 0%Z Examples.train_layer
           (Examples2.vec_e, Examples2.vec_d, Examples2.mask_e))
    = Ok vec_ed
    /\ snd (StripFromConcatenateWithPadding.forward Examples.train_layer
              (vec_ed, Axes._AsTokenIDs Examples2.mask_e, Examples2.tok_d))
       = Ok Examples2.vec_d.
Proof.
  apply (@X5_cast_mask_serves_as_token_ids Z 0%Z
           Examples.train_layer Examples.train_layer
           Examples2.vec_e Examples2.vec_d Examples2.mask_e Examples2.tok_d
           2 2 1 2).
  - discriminate.
  - reflexivity.
  - discriminate.
  - reflexivity.
  - reflexivity.
  - reflexivity.
  - reflexivity.
  - reflexivity.
  - reflexivity.
  - reflexivity.
  - simpl. intros v [<-|[<-|[<-|[<-|[]]]]]; auto.
Defined.

Lemma run_session_fixed {S I O : Type} (step : S -> I -> S * res O)
    (st : S) (g : I -> res O) (calls : list I) :
  (forall x, step st x = (st, g x)) ->
  run_session step st calls = (st, map g calls).
Proof.
  intros Hfix. induction calls as [|x rest IH]; [reflexivity|].
  cbn [run_session map]. rewrite Hfix, IH. reflexivity.
Qed.

(** X6.  A decoding session in predict mode through both layers in
    sequence: when the first step has the declared shapes, every step
    returns the decoder vectors it was given, the first one by concatenating
    and stripping, the later ones by passing them through both layers. *)
Theorem X6_predict_session_returns_decoder_vectors (T : Type) (zero : T)
    (concat_layer strip_layer : layer)
    (vec_e vec_d : ndarray T) (tok_e tok_d : ndarray Z)
    (later : list (ndarray T * ndarray T * ndarray Z * ndarray Z * ndarray Z))
    (B L1 L2 H : nat) :
  _mode concat_layer = "predict"%string ->
  _mode strip_layer = "predict"%string ->
  shape vec_e = [B; L1; H] -> shape vec_d = [B; L2; H] ->
  shape tok_e = [B; L1] -> shape tok_d = [B; L2] ->
  well_formed vec_e -> well_formed vec_d ->
  snd (run_session (concat_then_strip zero)
         (ConcatWithPadding.init_weights_and_state concat_layer,
          StripFromConcatenateWithPadding.init_weights_and_state strip_layer)
         ((vec_e, vec_d, EncoderMask tok_e, tok_e, tok_d) :: later))
  = Ok vec_d :: map (fun x => Ok (snd (fst (fst (fst x))))) later.
Proof.
  intros Hmc Hms He Hd Hte Htd Hwe Hwd.
  assert (Hm : shape (EncoderMask tok_e) = [B; L1]) by exact Hte.
  assert (Hidx : forall b, b < B ->
            sum_int32 (item (EncoderMask tok_e) b)
            = sum_int32 (not_equal_zero (item tok_e b))).
  { intros b Hb. unfold EncoderMask. rewrite item_not_equal_zero.
    reflexivity. }
  destruct (@strip_after_concat T zero vec_e vec_d (EncoderMask tok_e)
              tok_e tok_d B L1 L2 H He Hd Hm Hte Htd Hwe Hwd Hidx)
    as (out & Hout & Hback).
  cbn [run_session]. unfold concat_then_strip at 1.
  rewrite Concat_first_call. rewrite Hout.
  rewrite Strip_first_call. rewrite Hback.
  rewrite (@run_session_fixed _ _ _ (concat_then_strip zero)
             (called_once concat_layer, called_once strip_layer)
             (fun x => Ok (snd (fst (fst (fst x)))))).
  - reflexivity.
  - intros [[[[e d] m] te] td]. unfold concat_then_strip.
    rewrite Concat_later_call by exact Hmc. cbn [fst snd].
    rewrite Strip_later_call by exact Hms. reflexivity.
Qed.

Lemma X6_predict_session_returns_decoder_vectors_witness :
  snd (run_session (concat_then_strip 0%Z)
         (ConcatWithPadding.init_weights_and_state Examples.predict_layer,
          StripFromConcatenateWithPadding.init_weights_and_state
            Examples.predict_layer)
         ((Examples.vec_e, Examples.vec_d, EncoderMask Examples.tok_e,
           Examples.tok_e, Examples.tok_d)
          :: [(Examples.vec_e, Examples.vec_d_flat, Examples.mask_e,
               Examples.tok_e_flat, Examples.tok_d)]))
  = Ok Examples.vec_d
    :: map (fun x => Ok (snd (fst (fst (fst x)))))
         [(Examples.vec_e, Examples.vec_d_flat, Examples.mask_e,
           Examples.tok_e_flat, Examples.tok_d)].
Proof.
  apply (@X6_predict_session_returns_decoder_vectors Z 0%Z
           Examples.predict_layer Examples.predict_layer
           Examples.vec_e Examples.vec_d Examples.tok_e Examples.tok_d
           [(Examples.vec_e, Examples.vec_d_flat, Examples.mask_e,
             Examples.tok_e_flat, Examples.tok_d)]
           1 3 1 1); reflexivity.
Defined.

(** X7.  In train/eval mode neither layer remembers anything: whatever was
    called before, and whether it raised or not, every call returns what the
    full computation gives on its own inputs. *)
Theorem X7_train_mode_keeps_no_memory (T : Type) (zero : T) (self : layer)
    (calls : list (ndarray T * ndarray T * ndarray Z))
    (calls' : list (ndarray T * ndarray Z * ndarray Z)) :
  _mode self <> "predict"%string -> state_ready self ->
  snd (run (ConcatWithPadding.forward zero) self calls)
  = map (fun x : ndarray T * ndarray T * ndarray Z =>
           let '(vec_e, vec_d, mask_e) := x in
           ConcatWithPadding._ConcatWithPadding zero vec_e vec_d mask_e)
        calls
  /\ snd (run (@StripFromConcatenateWithPadding.forward T) self calls')
     = map (fun x : ndarray T * ndarray Z * ndarray Z =>
              let '(vec_ed, tok_e, tok_d) := x in
              StripFromConcatenateWithPadding._StripFromConcatenateWithPadding
                vec_ed tok_e tok_d)
           calls'.
Proof.
  intros Hmode Hready. split.
  - revert self Hmode Hready.
    induction calls as [|[[e d] m] rest IH]; intros self Hmode Hready;
      [reflexivity|].
    cbn [run map]. rewrite ConcatWithPadding_forward_train by assumption.
    specialize (IH (set_state self (NDArray [1] (data (state self))))
                  Hmode Hready).
    destruct (run (ConcatWithPadding.forward zero)
                (set_state self (NDArray [1] (data (state self)))) rest)
      as [self2 outs].
    cbn [snd] in *. rewrite IH. reflexivity.
  - revert self Hmode Hready.
    induction calls' as [|[[ed te] td] rest IH]; intros self Hmode Hready;
      [reflexivity|].
    cbn [run map]. rewrite Strip_forward_train by assumption.
    specialize (IH (set_state self (NDArray [1] (data (state self))))
                  Hmode Hready).
    destruct (run (@StripFromConcatenateWithPadding.forward T)
                (set_state self (NDArray [1] (data (state self)))) rest)
      as [self2 outs].
    cbn [snd] in *. rewrite IH. reflexivity.
Qed.

Lemma X7_train_mode_keeps_no_memory_witness :
  snd (run (ConcatWithPadding.forward 0%Z) Examples.train_layer
         [(Examples.vec_e, Examples.vec_d_flat, Examples.mask_e);
          (Examples.vec_e, Examples.vec_d, Examples.mask_e)])
  = map (fun x : ndarray Z * ndarray Z * ndarray Z =>
           let '(vec_e, vec_d, mask_e) := x in
           ConcatWithPadding._ConcatWithPadding 0%Z vec_e vec_d mask_e)
        [(Examples.vec_e, Examples.vec_d_flat, Examples.mask_e);
         (Examples.vec_e, Examples.vec_d, Examples.mask_e)].
Proof.
  apply (@X7_train_mode_keeps_no_memory Z 0%Z Examples.train_layer
           [(Examples.vec_e, Examples.vec_d_flat, Examples.mask_e);
            (Examples.vec_e, Examples.vec_d, Examples.mask_e)]
           []).
  - discriminate.
  - reflexivity.
Defined.

(** ** terraformer.py: helpers and set-up *)

(** X8.  [_InsertAxes12] and [_RemoveAxes12] are inverse to each other: a
    well-formed (b, l) array becomes a (b, 1, 1, l) array with the same data
    and comes back unchanged, and a well-formed (b, 1, 1, l) array becomes
    (b, l) and comes back unchanged.  Outside these shapes they fail:
    inserting into an array with fewer than two axes raises [IndexError],
    and removing axes that are missing or not of size one gives the
    [ValueError] of [jnp.squeeze]. *)
Theorem X8_insert_and_remove_axes_are_inverse (A : Type) (x : ndarray A)
    (b l : nat) :
  well_formed x ->
  (shape x = [b; l] ->
   Axes._InsertAxes12 x = Ok (NDArray [b; 1; 1; l] (data x))
   /\ Axes._RemoveAxes12 (NDArray [b; 1; 1; l] (data x)) = Axes.Squeezed x)
  /\ (shape x = [b; 1; 1; l] ->
      Axes._RemoveAxes12 x = Axes.Squeezed (NDArray [b; l] (data x))
      /\ Axes._InsertAxes12 (NDArray [b; l] (data x)) = Ok x)
  /\ (length (shape x) < 2 -> Axes._InsertAxes12 x = Raise IndexError)
  /\ (length (shape x) < 3 ->
      exists axis,
        Axes._RemoveAxes12 x = Axes.AxisOutOfBounds axis (length (shape x)))
  /\ (forall d1 d2 rest,
        shape x = b :: d1 :: d2 :: rest -> d1 <> 1 \/ d2 <> 1 ->
        Axes._RemoveAxes12 x = Axes.NotSizeOne (shape x) [1; 2]).
Proof.
  intros Hwf. unfold well_formed in Hwf.
  split; [|split; [|split; [|split]]].
  - intros Hs. unfold Axes._InsertAxes12, Axes._RemoveAxes12, Axes.squeeze12,
      index, reshape.
    rewrite Hs. cbn [nth_error bind shape data Nat.eqb andb].
    rewrite Hwf, Hs.
    replace (size_of [b; l] =? size_of [b; 1; 1; l]) with true
      by (symmetry; apply Nat.eqb_eq; cbn; lia).
    split; [reflexivity|]. rewrite <- Hs. rewrite ndarray_eta. reflexivity.
  - intros Hs. unfold Axes._InsertAxes12, Axes._RemoveAxes12, Axes.squeeze12,
      index, reshape.
    rewrite Hs. cbn [nth_error bind shape data Nat.eqb andb].
    rewrite Hwf, Hs.
    replace (size_of [b; 1; 1; l] =? size_of [b; 1; 1; l]) with true
      by (symmetry; apply Nat.eqb_refl).
    split; [reflexivity|]. rewrite <- Hs. rewrite ndarray_eta. reflexivity.
  - intros Hlen. unfold Axes._InsertAxes12, index.
    destruct (shape x) as [|d0 [|d1 rest]]; cbn in *; try reflexivity; lia.
  - intros Hlen. unfold Axes._RemoveAxes12, Axes.squeeze12.
    destruct (shape x) as [|d0 [|d1 [|d2 rest]]]; cbn in *;
      try (eexists; reflexivity); lia.
  - intros d1 d2 rest Hs Hne. unfold Axes._RemoveAxes12, Axes.squeeze12.
    rewrite Hs.
    replace ((d1 =? 1) && (d2 =? 1)) with false; [reflexivity|].
    symmetry. apply andb_false_iff.
    destruct Hne as [H1|H2]; [left|right]; apply Nat.eqb_neq; assumption.
Qed.

Lemma X8_insert_and_remove_axes_are_inverse_witness :
  Axes._InsertAxes12 Examples.tok_e
  = Ok (NDArray [1; 1; 1; 3] (data Examples.tok_e))
  /\ Axes._RemoveAxes12 (NDArray [1; 1; 1; 3] (data Examples.tok_e))
     = Axes.Squeezed Examples.tok_e.
Proof.
  apply (@X8_insert_and_remove_axes_are_inverse Z Examples.tok_e 1 3);
    reflexivity.
Defined.

(** X9.  For [d_model] and [n_heads] that a float holds exactly (ints of
    up to 2^53 in absolute value): when the opening check of
    [ConfigurableTerraformer] passes, [d_model] is even and [n_heads] is not
    zero, and the sizes of the attention keys and values that it derives by
    floor division lose nothing: both are even and [n_heads] times each of
    them is [d_model] again.  Sizes given by the caller are returned as they
    are.  An odd [d_model] never passes, whatever the number of heads. *)
Theorem X9_derived_head_sizes_are_exact (d_model n_heads : Z)
    (dk dv : option Z) :
  (Z.abs d_model <= 2 ^ 53)%Z -> (Z.abs n_heads <= 2 ^ 53)%Z ->
  (forall k v,
     Terraformer.ConfigurableTerraformer d_model dk dv n_heads = Ok (k, v) ->
     n_heads <> 0%Z
     /\ Z.even d_model = true
     /\ (dk = None -> (n_heads * k = d_model)%Z /\ Z.even k = true)
     /\ (dv = None -> (n_heads * v = d_model)%Z /\ Z.even v = true)
     /\ (forall k', dk = Some k' -> k = k')
     /\ (forall v', dv = Some v' -> v = v'))
  /\ (Z.odd d_model = true ->
      raises (Terraformer.ConfigurableTerraformer d_model dk dv n_heads)).
Proof.
  intros Hd Hn. split.
  - intros k v Hok.
    destruct (heads_check_passes _ _ Hd Hn Hok) as (Hn0 & [q Hq] & Hk & Hv).
    cbn [fst snd] in Hk, Hv.
    assert (Hdiv : (d_model / n_heads = 2 * q)%Z)
      by (rewrite Hq; apply Z.div_mul; exact Hn0).
    split; [exact Hn0|]. split.
    { rewrite Hq, <- Z.mul_assoc. apply Z.even_mul. }
    split; [|split; [|split]].
    + intros ->. cbn in Hk. injection Hk as <-. rewrite Hdiv. split.
      * lia.
      * apply Z.even_mul.
    + intros ->. cbn in Hv. injection Hv as <-. rewrite Hdiv. split.
      * lia.
      * apply Z.even_mul.
    + intros k' ->. cbn in Hk. congruence.
    + intros v' ->. cbn in Hv. congruence.
  - intros Hodd.
    destruct (Terraformer.ConfigurableTerraformer d_model dk dv n_heads)
      as [kv|e] eqn:Hres; [|exists e; reflexivity].
    destruct (heads_check_passes _ _ Hd Hn Hres) as (_ & [q Hq] & _).
    exfalso. rewrite Hq, <- Z.mul_assoc, Z.odd_mul in Hodd. discriminate.
Qed.

Lemma X9_derived_head_sizes_are_exact_witness :
  (8 <> 0)%Z
  /\ Z.even 512 = true
  /\ (@None Z = None -> (8 * 64 = 512)%Z /\ Z.even 64 = true)
  /\ (@None Z = None -> (8 * 64 = 512)%Z /\ Z.even 64 = true)
  /\ (forall k', @None Z = Some k' -> 64%Z = k')
  /\ (forall v', @None Z = Some v' -> 64%Z = v').
Proof.
  refine (proj1 (@X9_derived_head_sizes_are_exact 512 8 None None _ _)
            64%Z 64%Z _).
  - vm_compute. discriminate.
  - vm_compute. discriminate.
  - vm_compute. reflexivity.
Defined.

(** X10.  In predict mode, when the mask holds a zero, the guard leaves no
    usable number behind: every value of its first output is an infinity
    or a NaN, in every binary format.  It never touches the mask, the shape
    or the number of values. *)
Theorem X10_guard_leaves_no_finite_value (prec emax : Z)
    (x : ndarray spec_float) (y : ndarray Z) :
  all y = false ->
  snd (Terraformer.predict_guard prec emax "predict" x y) = y
  /\ shape (fst (Terraformer.predict_guard prec emax "predict" x y)) = shape x
  /\ length (data (fst (Terraformer.predict_guard prec emax "predict" x y)))
     = length (data x)
  /\ forall v,
       In v (data (fst (Terraformer.predict_guard prec emax "predict" x y))) ->
       v = S754_nan \/ exists s, v = S754_infinity s.
Proof.
  intros Hall. rewrite guard_any_zero by exact Hall. cbn [fst snd shape data].
  repeat split.
  - apply length_map.
  - intros v Hv. apply in_map_iff in Hv. destruct Hv as [u [<- _]].
    rewrite divide_by_zero_cases.
    destruct u as [s|s| |s m e]; [left|right; exists s|left|right; exists s];
      reflexivity.
Qed.

Lemma X10_guard_leaves_no_finite_value_witness :
  snd (Terraformer.predict_guard 24 128 "predict"
         Examples.embedding Examples.mask_padded) = Examples.mask_padded
  /\ shape (fst (Terraformer.predict_guard 24 128 "predict"
                   Examples.embedding Examples.mask_padded))
     = shape Examples.embedding
  /\ length (data (fst (Terraformer.predict_guard 24 128 "predict"
                          Examples.embedding Examples.mask_padded)))
     = length (data Examples.embedding)
  /\ forall v,
       In v (data (fst (Terraformer.predict_guard 24 128 "predict"
                          Examples.embedding Examples.mask_padded))) ->
       v = S754_nan \/ exists s, v = S754_infinity s.
Proof.
  apply (@X10_guard_leaves_no_finite_value 24 128
           Examples.embedding Examples.mask_padded).
  reflexivity.
Defined.

Section ForgetCount.
Variable block : Type.
Variable dim : Type.
Import Terraformer.

Lemma forget_count (d_model : dim) (n : nat) (forget_dense : bool) :
  0 < n ->
  forall (m : nat) (layers : list block),
    length layers <= m ->
    forgetting_blocks
      (_ReversibleSerialForget layers d_model (Some n) forget_dense)
    = (length layers - 2) / n.
Proof.
  intros Hn m. induction m as [|m IH]; intros layers Hm.
  - rewrite forget_short by lia.
    replace (length layers - 2) with 0 by lia.
    symmetry. apply Nat.div_small. exact Hn.
  - destruct (le_lt_dec (length layers) (n + 1)) as [Hshort|Hlong].
    + rewrite forget_short by exact Hshort.
      symmetry. apply Nat.div_small. lia.
    + rewrite forget_long by assumption.
      destruct (forgetting_layer_counts block d_model forget_dense)
        as [Hfb _].
      cbn [forgetting_blocks]. rewrite Hfb.
      rewrite IH by (rewrite length_skipn; lia).
      rewrite length_skipn.
      replace (length layers - 2) with (length layers - n - 2 + 1 * n) by lia.
      rewrite Nat.div_add by lia. lia.
Qed.

Lemma forget_last_group (d_model : dim) (n : nat) (forget_dense : bool) :
  0 < n ->
  forall (m : nat) (layers : list block),
    length layers <= m -> 2 <= length layers ->
    2 <= length
           (last (reversible_groups
                    (_ReversibleSerialForget layers d_model (Some n)
                       forget_dense)) []).
Proof.
  intros Hn m. induction m as [|m IH]; intros layers Hm Hlen; [lia|].
  destruct (le_lt_dec (length layers) (n + 1)) as [Hshort|Hlong].
  - rewrite forget_short by exact Hshort. cbn. exact Hlen.
  - rewrite forget_long by assumption.
    destruct (forgetting_layer_counts block d_model forget_dense)
      as [_ Hfg].
    assert (Hrest : length (skipn n layers) <= m)
      by (rewrite length_skipn; lia).
    assert (Hrest2 : 2 <= length (skipn n layers))
      by (rewrite length_skipn; lia).
    specialize (IH (skipn n layers) Hrest Hrest2).
    cbn [reversible_groups]. rewrite Hfg. cbn [app]. rewrite app_nil_r.
    destruct (reversible_groups
                (_ReversibleSerialForget (skipn n layers) d_model (Some n)
                   forget_dense)) as [|g gs] eqn:Hg.
    + cbn in IH. lia.
    + exact IH.
Qed.

End ForgetCount.

(** X11.  The number of forgetting blocks that [_ReversibleSerialForget]
    inserts is the integer quotient of (number of layers - 2) by the period,
    and zero when the period is zero or [None].  In a stack of at least two
    layers the last reversible group holds at least two layers, so a
    forgetting block is never followed by a single layer. *)
Theorem X11_number_of_forgetting_blocks (block dim : Type)
    (layers : list block) (d_model : dim) (n_layers : option nat)
    (forget_dense : bool) :
  Terraformer.forgetting_blocks
    (Terraformer._ReversibleSerialForget layers d_model n_layers forget_dense)
  = match n_layers with
    | Some (S k) => (length layers - 2) / S k
    | _ => 0
    end
  /\ (forall n, n_layers = Some n -> 0 < n -> 2 <= length layers ->
        2 <= length
               (last (Terraformer.reversible_groups
                        (Terraformer._ReversibleSerialForget layers d_model
                           n_layers forget_dense)) [])).
Proof.
  split.
  - destruct n_layers as [[|k]|].
    + rewrite forget_zero. reflexivity.
    + apply forget_count with (m := length layers); lia.
    + rewrite forget_none. reflexivity.
  - intros n -> Hn Hlen.
    apply forget_last_group with (m := length layers); lia.
Qed.

Lemma X11_number_of_forgetting_blocks_witness :
  2 <= length
         (last (Terraformer.reversible_groups
                  (Terraformer._ReversibleSerialForget
                     [1; 2; 3; 4; 5; 6] 512%Z (Some 2) true)) []).
Proof.
  apply (proj2 (@X11_number_of_forgetting_blocks nat Z
                  [1; 2; 3; 4; 5; 6] 512%Z (Some 2) true) 2).
  - reflexivity.
  - lia.
  - simpl. lia.
Defined.

(** ** terraformer.py: the sizes of the decoder blocks *)

Section DecoderProofs.
Variable attention : Type.
Import Decoder.

Lemma widths_agree_compat (entries : list (entry attention))
    (w w' final final' : Q) :
  (w == w')%Q -> (final == final')%Q ->
  widths_agree w entries final = widths_agree w' entries final'.
Proof.
  revert w w'. induction entries as [|e rest IH]; intros w w' Hw Hf.
  - cbn. destruct (Qeq_bool w final) eqn:E.
    + symmetry. apply Qeq_bool_iff. apply Qeq_bool_iff in E.
      rewrite <- Hw, <- Hf. exact E.
    + destruct (Qeq_bool w' final') eqn:E'; [|reflexivity].
      apply Qeq_bool_iff in E'. rewrite <- Hw, <- Hf in E'.
      apply Qeq_bool_iff in E'. congruence.
  - destruct e as [d_m d_f d_k d_v nh a|]; cbn.
    + rewrite (IH w w' Hw Hf). f_equal.
      destruct (Qeq_bool d_m w) eqn:E.
      * symmetry. apply Qeq_bool_iff. apply Qeq_bool_iff in E.
        rewrite <- Hw. exact E.
      * destruct (Qeq_bool d_m w') eqn:E'; [|reflexivity].
        apply Qeq_bool_iff in E'. rewrite <- Hw in E'.
        apply Qeq_bool_iff in E'. congruence.
    + apply IH; [rewrite Hw; reflexivity|exact Hf].
Qed.

(** One turn of the loop: the block must have the running width, and each
    pair appended after it doubles that width. *)
Lemma widths_agree_appended (s : sizes) (n_heads : Z) (a0 : attention)
    (types : list attention) (h d : option Z) (i : nat)
    (rest : list (entry attention)) (w final : Q) :
  widths_agree w (appended s n_heads a0 types h d i ++ rest) final
  = Qeq_bool (d_model (layer_sizes s h d (Z.of_nat i))) w
    && widths_agree
         (let w1 := if knob_and h (fun hv => (Z.of_nat i =? hv - 1)%Z)
                    then (w * 2)%Q else w in
          if knob_and d (fun dv => (Z.of_nat i =? dv)%Z)
          then (w1 * 2)%Q else w1)
         rest final.
Proof.
  unfold appended. cbv zeta.
  destruct (knob_and h (fun hv => (Z.of_nat i =? hv - 1)%Z));
    destruct (knob_and d (fun dv => (Z.of_nat i =? dv)%Z)); reflexivity.
Qed.

Ltac knob_cases :=
  repeat match goal with
         | |- context [(?a =? ?b)%Z] => destruct (Z.eqb_spec a b)
         | |- context [(?a <=? ?b)%Z] => destruct (Z.leb_spec a b)
         | |- context [(?a <? ?b)%Z] => destruct (Z.ltb_spec a b)
         end;
  cbn [negb andb d_model halved doubled].

Lemma layer_width_expected (s : sizes) (n : nat) (h d : option Z) (i : nat) :
  knobs_fit n h d -> i < n ->
  (d_model (layer_sizes s h d (Z.of_nat i)) == expected_width s h d i)%Q.
Proof.
  intros (Hh & Hd & Hhd) Hi.
  unfold expected_width, layer_sizes, first_stage, final_stage, knob_and, truthy.
  destruct h as [hv|], d as [dv|]; cbv zeta.
  - specialize (Hh hv eq_refl). specialize (Hd dv eq_refl).
    specialize (Hhd hv dv eq_refl eq_refl).
    knob_cases; try lia; try field.
  - specialize (Hh hv eq_refl).
    knob_cases; try lia; try field.
  - specialize (Hd dv eq_refl).
    knob_cases; try lia; try field.
  - cbn. field.
Qed.

Lemma expected_step (s : sizes) (n : nat) (h d : option Z) (i : nat) :
  knobs_fit n h d -> i < n ->
  ((let w1 := if knob_and h (fun hv => (Z.of_nat i =? hv - 1)%Z)
              then expected_width s h d i * 2 else expected_width s h d i in
    if knob_and d (fun dv => (Z.of_nat i =? dv)%Z) then w1 * 2 else w1)
   == expected_width s h d (S i))%Q.
Proof.
  intros (Hh & Hd & Hhd) Hi.
  unfold expected_width, knob_and. rewrite Nat2Z.inj_succ.
  destruct h as [hv|], d as [dv|]; cbv zeta.
  - specialize (Hh hv eq_refl). specialize (Hd dv eq_refl).
    specialize (Hhd hv dv eq_refl eq_refl).
    knob_cases; try lia; try field.
  - specialize (Hh hv eq_refl).
    knob_cases; try lia; try field.
  - specialize (Hd dv eq_refl).
    knob_cases; try lia; try field.
  - field.
Qed.

Lemma expected_ends (s : sizes) (n : nat) (h d : option Z) :
  knobs_fit n h d ->
  (d_model (first_stage s h) == expected_width s h d 0)%Q
  /\ (expected_width s h d n == d_model (final_stage s d))%Q.
Proof.
  intros (Hh & Hd & Hhd).
  unfold expected_width, first_stage, final_stage, knob_and, truthy.
  destruct h as [hv|], d as [dv|]; cbv zeta.
  - specialize (Hh hv eq_refl). specialize (Hd dv eq_refl).
    split; knob_cases; try lia; try field.
  - specialize (Hh hv eq_refl).
    split; knob_cases; try lia; try field.
  - specialize (Hd dv eq_refl).
    split; knob_cases; try lia; try field.
  - split; cbn; field.
Qed.

Lemma widths_agree_from (s : sizes) (n_heads : Z) (a0 : attention)
    (types : list attention) (n : nat) (h d : option Z) :
  knobs_fit n h d ->
  forall m k, k + m = n ->
    widths_agree (expected_width s h d k)
      (flat_map (appended s n_heads a0 types h d) (seq k m))
      (expected_width s h d n) = true.
Proof.
  intros Hfit m. induction m as [|m IH]; intros k Hk.
  - cbn. replace k with n by lia. apply Qeq_bool_iff. reflexivity.
  - cbn [seq flat_map]. rewrite widths_agree_appended.
    apply andb_true_intro. split.
    + apply Qeq_bool_iff. apply layer_width_expected with (n := n);
        [exact Hfit|lia].
    + rewrite (@widths_agree_compat _ _ (expected_width s h d (S k))
                 (expected_width s h d n) (expected_width s h d n)).
      * apply IH. lia.
      * apply expected_step with (n := n); [exact Hfit|lia].
      * reflexivity.
Qed.

Ltac halves :=
  unfold Qdiv in *; change (/ 2)%Q with (1 # 2)%Q in *.

Lemma running_start (s : sizes) (h d : option Z) :
  (d_model (first_stage s h) == running_width s h d 0)%Q.
Proof.
  unfold running_width, knob_and.
  destruct h as [hv|], d as [dv|]; knob_cases; try lia; lra.
Qed.

Lemma running_step (s : sizes) (h d : option Z) (i : nat) :
  ((let w1 := if knob_and h (fun hv => (Z.of_nat i =? hv - 1)%Z)
              then running_width s h d i * 2 else running_width s h d i in
    if knob_and d (fun dv => (Z.of_nat i =? dv)%Z) then w1 * 2 else w1)
   == running_width s h d (S i))%Q.
Proof.
  unfold running_width, knob_and. rewrite Nat2Z.inj_succ.
  destruct h as [hv|], d as [dv|]; cbv zeta; knob_cases; try lia; lra.
Qed.

(** As long as the widths agree, the stream has the running width in front
    of every block. *)
Lemma running_invariant (s : sizes) (n_heads : Z) (a0 : attention)
    (types : list attention) (n : nat) (h d : option Z) (final : Q) :
  widths_agree (running_width s h d 0)
    (flat_map (appended s n_heads a0 types h d) (seq 0 n)) final = true ->
  forall k, k <= n ->
    widths_agree (running_width s h d k)
      (flat_map (appended s n_heads a0 types h d) (seq k (n - k))) final
    = true
    /\ forall i, i < k ->
         (d_model (layer_sizes s h d (Z.of_nat i))
          == running_width s h d i)%Q.
Proof.
  intros Hall k. induction k as [|k IH]; intros Hk.
  - rewrite Nat.sub_0_r. split; [exact Hall|intros i Hi; lia].
  - destruct (IH ltac:(lia)) as [Hrest Hdone].
    replace (n - k) with (S (n - S k)) in Hrest by lia.
    cbn [seq flat_map] in Hrest. rewrite widths_agree_appended in Hrest.
    apply andb_prop in Hrest. destruct Hrest as [Hblock Hrest].
    split.
    + rewrite <- Hrest. apply widths_agree_compat; [|reflexivity].
      symmetry. apply running_step.
    + intros i Hi. destruct (Nat.eq_dec i k) as [->|Hne].
      * apply Qeq_bool_iff. exact Hblock.
      * apply Hdone. lia.
Qed.

Lemma knobs_fit_needed (s : sizes) (n_heads : Z) (a0 : attention)
    (types : list attention) (n : nat) (h d : option Z) :
  (0 < d_model s)%Q ->
  widths_agree (d_model (first_stage s h))
    (flat_map (appended s n_heads a0 types h d) (seq 0 n))
    (d_model (final_stage s d)) = true ->
  knobs_fit n h d.
Proof.
  intros Hpos Hall.
  rewrite (@widths_agree_compat _ _ (running_width s h d 0)
             (d_model (final_stage s d)) (d_model (final_stage s d))
             (running_start s h d) (Qeq_refl _)) in Hall.
  pose proof (running_invariant _ _ _ _ _ _ _ Hall) as Hinv.
  destruct (Hinv n (le_n _)) as [Hend _].
  rewrite Nat.sub_diag in Hend. cbn in Hend. apply Qeq_bool_iff in Hend.
  assert (Hh : forall hv, h = Some hv -> hv <> 0%Z ->
                          (1 <= hv <= Z.of_nat n)%Z).
  { intros hv -> Hne. revert Hend.
    unfold running_width, first_stage, final_stage, knob_and, truthy.
    destruct d as [dv|]; knob_cases; intros Hend; halves; try lia; lra. }
  assert (Hd : forall dv, d = Some dv -> dv <> 0%Z ->
                          (1 <= dv < Z.of_nat n)%Z).
  { intros dv -> Hne. revert Hend.
    unfold running_width, first_stage, final_stage, knob_and, truthy.
    destruct h as [hv|]; knob_cases; intros Hend; halves; try lia; lra. }
  split; [exact Hh|]. split; [exact Hd|].
  intros hv dv -> -> Hhne Hdne.
  specialize (Hh hv eq_refl Hhne). specialize (Hd dv eq_refl Hdne).
  destruct (Z.le_gt_cases hv (dv + 1)) as [Hle|Hgt]; [exact Hle|exfalso].
  destruct (Hinv (S (Z.to_nat (dv + 1))) ltac:(lia)) as [_ Hblocks].
  specialize (Hblocks (Z.to_nat (dv + 1)) ltac:(lia)).
  revert Hblocks.
  unfold running_width, layer_sizes, first_stage, final_stage, knob_and,
    truthy.
  rewrite Z2Nat.id by lia. cbv zeta.
  knob_cases; intros Hblocks; halves; try lia; lra.
Qed.

End DecoderProofs.

Section HalvingProofs.
Import Decoder.

(** On ints that a float holds exactly, Python's halving rounds nothing. *)
Lemma halved_floats_exact (zm zf zk zv : Z) :
  Binary64.exact_int zm -> Binary64.exact_int zf ->
  Binary64.exact_int zk -> Binary64.exact_int zv ->
  exists s1,
    halved_floats zm zf zk zv = Ok s1
    /\ same_sizes s1 (halved (of_ints zm zf zk zv)).
Proof.
  intros Hm Hf Hk Hv. unfold halved_floats.
  rewrite (truediv_two Hm), (truediv_two Hf), (truediv_two Hk),
    (truediv_two Hv).
  cbn [bind]. eexists. split; [reflexivity|].
  unfold same_sizes, halved, of_ints.
  cbn [d_model d_ff d_attention_key d_attention_value].
  repeat split; apply Qred_correct.
Qed.

End HalvingProofs.

(** X12.  For sizes that a float holds exactly (ints of up to 2^53 in
    absolute value, [d_model] positive), halving them as Python does gives
    their exact halves, and the list [decoder_blocks] lets a stream of the
    first stage's width through and leaves it with the final stage's width
    exactly when the two knobs fit the decoder: [half_before_layer], when
    set, lies between 1 and the number of layers; [double_after_layer], when
    set, lies between 1 and the number of layers minus one; and when both
    are set, halving ends no later than the layer after which doubling
    starts.  Any other setting builds a list whose widths do not match,
    without raising.  (A knob is set when it is neither [None] nor 0.) *)
Theorem X12_decoder_widths_agree_iff_knobs_fit (attention : Type)
    (d_model d_ff d_attention_key d_attention_value : Z)
    (s : Decoder.sizes) (n_heads : Z) (n_decoder_layers : nat)
    (encoder_decoder_attention_type : attention + list attention)
    (half_before_layer double_after_layer : option Z)
    (entries : list (Decoder.entry attention)) :
  (0 < d_model <= 2 ^ 53)%Z ->
  (Z.abs d_ff <= 2 ^ 53)%Z ->
  (Z.abs d_attention_key <= 2 ^ 53)%Z ->
  (Z.abs d_attention_value <= 2 ^ 53)%Z ->
  s = Decoder.of_ints d_model d_ff d_attention_key d_attention_value ->
  Decoder.decoder_blocks s n_heads n_decoder_layers
    encoder_decoder_attention_type half_before_layer double_after_layer
  = Decoder.Built entries ->
  (exists s1,
     Decoder.halved_floats d_model d_ff d_attention_key d_attention_value
     = Ok s1
     /\ Decoder.same_sizes s1 (Decoder.halved s))
  /\ (Decoder.widths_agree
        (Decoder.d_model (Decoder.first_stage s half_before_layer))
        entries
        (Decoder.d_model (Decoder.final_stage s double_after_layer)) = true
      <-> Decoder.knobs_fit n_decoder_layers half_before_layer
            double_after_layer).
Proof.
  intros Hm Hf Hk Hv -> Hbuilt. split.
  { apply halved_floats_exact; try assumption.
    unfold Binary64.exact_int, Binary64.prec. lia. }
  assert (Hpos : (0 < Decoder.d_model
                        (Decoder.of_ints d_model d_ff d_attention_key
                           d_attention_value))%Q).
  { cbn [Decoder.of_ints Decoder.d_model]. change 0%Q with (inject_Z 0).
    rewrite <- Zlt_Qlt. lia. }
  set (s := Decoder.of_ints d_model d_ff d_attention_key d_attention_value)
    in *.
  unfold Decoder.decoder_blocks in Hbuilt.
  destruct (Decoder.attention_types encoder_decoder_attention_type
              n_decoder_layers) as [[a0 types]|e]; [|discriminate].
  injection Hbuilt as <-. split.
  - apply knobs_fit_needed. exact Hpos.
  - intros Hfit.
    destruct (expected_ends s Hfit) as [Hstart Hend].
    rewrite (@widths_agree_compat _ _ _
               (Decoder.expected_width s half_before_layer
                  double_after_layer 0) _
               (Decoder.expected_width s half_before_layer
                  double_after_layer n_decoder_layers)
               Hstart (Qeq_sym _ _ Hend)).
    apply widths_agree_from with (n := n_decoder_layers);
      [exact Hfit|reflexivity].
Qed.

Lemma X12_decoder_widths_agree_iff_knobs_fit_witness :
  (exists s1,
     Decoder.halved_floats 512 2048 64 64 = Ok s1
     /\ Decoder.same_sizes s1 (Decoder.halved Examples2.decoder_sizes))
  /\ (Decoder.widths_agree
        (Decoder.d_model
           (Decoder.first_stage Examples2.decoder_sizes (Some 2%Z)))
        (flat_map
           (Decoder.appended Examples2.decoder_sizes 8 0 [0]
              (Some 2%Z) (Some 3%Z))
           (seq 0 4))
        (Decoder.d_model
           (Decoder.final_stage Examples2.decoder_sizes (Some 3%Z)))
      = true
      <-> Decoder.knobs_fit 4 (Some 2%Z) (Some 3%Z)).
Proof.
  apply (@X12_decoder_widths_agree_iff_knobs_fit nat 512 2048 64 64
           Examples2.decoder_sizes 8 4 (inl 0) (Some 2%Z) (Some 3%Z)).
  - split; [reflexivity|vm_compute; discriminate].
  - vm_compute. discriminate.
  - vm_compute. discriminate.
  - vm_compute. discriminate.
  - reflexivity.
  - reflexivity.
Defined.

Section AttentionProofs.
Variable attention : Type.
Import Decoder.

Lemma attention_of_app (l1 l2 : list (entry attention)) :
  attention_of (l1 ++ l2) = attention_of l1 ++ attention_of l2.
Proof.
  induction l1 as [|e l1 IH]; [reflexivity|].
  destruct e; cbn; rewrite IH; reflexivity.
Qed.

Lemma attention_of_blocks (s : sizes) (n_heads : Z) (a0 : attention)
    (types : list attention) (h d : option Z) (idxs : list nat) :
  attention_of (flat_map (appended s n_heads a0 types h d) idxs)
  = map (fun i => nth (i mod length types) types a0) idxs.
Proof.
  induction idxs as [|i idxs IH]; [reflexivity|].
  cbn [flat_map map]. rewrite attention_of_app, IH. f_equal.
  unfold appended. cbv zeta.
  destruct (knob_and h _); destruct (knob_and d _); reflexivity.
Qed.

Lemma nth_over_seq (l : list attention) (a0 : attention) :
  map (fun i => nth i l a0) (seq 0 (length l)) = l.
Proof.
  induction l as [|a l IH]; [reflexivity|].
  cbn [length seq map nth]. rewrite <- seq_shift, map_map.
  cbn [nth]. rewrite IH. reflexivity.
Qed.

Lemma map_seq_from (B : Type) (f : nat -> B) (k m : nat) :
  map f (seq k m) = map (fun i => f (k + i)) (seq 0 m).
Proof.
  revert k. induction m as [|m IH]; intros k; [reflexivity|].
  cbn [seq map]. rewrite Nat.add_0_r. f_equal.
  rewrite IH, <- seq_shift, map_map.
  apply map_ext. intros i. f_equal. lia.
Qed.

Lemma cycle_through (types : list attention) (a0 : attention) (q : nat) :
  types <> [] ->
  map (fun i => nth (i mod length types) types a0)
      (seq 0 (q * length types))
  = concat (repeat types q).
Proof.
  intros Hne.
  assert (Hlen : length types <> 0) by (destruct types; [congruence|discriminate]).
  induction q as [|q IH]; [reflexivity|].
  cbn [Nat.mul repeat concat]. rewrite seq_app, map_app. f_equal.
  - transitivity (map (fun i => nth i types a0) (seq 0 (length types)));
      [|apply nth_over_seq].
    apply map_ext_in. intros i Hi. apply in_seq in Hi.
    rewrite Nat.mod_small by lia. reflexivity.
  - cbn [Nat.add]. rewrite map_seq_from, <- IH.
    apply map_ext. intros i. f_equal.
    rewrite Nat.add_comm.
    rewrite <- (Nat.mul_1_l (length types)) at 1.
    apply Nat.Div0.mod_add.
Qed.

End AttentionProofs.

(** X13.  The decoder blocks go through the attention types in order, over
    and over: with a list of types whose length divides the number of
    decoder layers, the types of the blocks are that list repeated, so every
    type serves equally many blocks; a single type serves every block.  A
    list whose length does not divide the number of layers fails the
    assertion, and an empty list fails in the modulo of that assertion.
    The two knobs change none of this. *)
Theorem X13_attention_types_cycle (attention : Type)
    (s : Decoder.sizes) (n_heads : Z) (n_decoder_layers : nat)
    (h d : option Z) :
  (forall a : attention,
     exists entries,
       Decoder.decoder_blocks s n_heads n_decoder_layers (inl a) h d
       = Decoder.Built entries
       /\ Decoder.attention_of entries = repeat a n_decoder_layers)
  /\ (forall types : list attention,
        types <> [] -> n_decoder_layers mod length types = 0 ->
        exists entries,
          Decoder.decoder_blocks s n_heads n_decoder_layers (inr types) h d
          = Decoder.Built entries
          /\ Decoder.attention_of entries
             = concat (repeat types (n_decoder_layers / length types)))
  /\ (forall types : list attention,
        types <> [] -> n_decoder_layers mod length types <> 0 ->
        Decoder.decoder_blocks s n_heads n_decoder_layers (inr types) h d
        = Decoder.Failed Decoder.AssertionError)
  /\ Decoder.decoder_blocks s n_heads n_decoder_layers (@inr attention _ [])
       h d
     = Decoder.Failed Decoder.ModuloByZero.
Proof.
  split; [|split; [|split]].
  - intros a. eexists. split; [reflexivity|].
    rewrite attention_of_blocks.
    induction n_decoder_layers as [|n IH]; [reflexivity|].
    rewrite seq_S, map_app, IH. cbn [map length Nat.add].
    rewrite Nat.mod_1_r. cbn [nth].
    rewrite <- repeat_cons. reflexivity.
  - intros types Hne Hmod. destruct types as [|a0 rest]; [congruence|].
    unfold Decoder.decoder_blocks, Decoder.attention_types.
    rewrite Hmod. cbn [Nat.eqb]. eexists. split; [reflexivity|].
    rewrite attention_of_blocks.
    rewrite (Nat.div_mod_eq n_decoder_layers (length (a0 :: rest))) at 1.
    rewrite Hmod, Nat.add_0_r, Nat.mul_comm.
    apply cycle_through. discriminate.
  - intros types Hne Hmod. destruct types as [|a0 rest]; [congruence|].
    unfold Decoder.decoder_blocks, Decoder.attention_types.
    apply Nat.eqb_neq in Hmod. rewrite Hmod. reflexivity.
  - reflexivity.
Qed.

(** ** Rows of a batch do not mix *)

Lemma row_ext {A : Type} (a a' : ndarray A) (B L H b : nat) :
  shape a = [B; L; H] -> shape a' = [B; L; H] ->
  well_formed a -> well_formed a' -> b < B ->
  (forall p, p < L -> item (item a b) p = item (item a' b) p) ->
  item a b = item a' b.
Proof.
  intros Hs Hs' Hwf Hwf' Hb Hitems.
  assert (Hdata : data (item a b) = data (item a' b)).
  { apply blocks_ext with (h := H) (n := L).
    - rewrite (length_item_data Hwf Hs Hb). apply size_of_2.
    - rewrite (length_item_data Hwf' Hs' Hb). apply size_of_2.
    - intros p Hp.
      rewrite <- (block_of_item a b p Hs), <- (block_of_item a' b p Hs').
      rewrite Hitems by assumption. reflexivity. }
  unfold item in *. cbn [data] in Hdata. rewrite Hs, Hs' in *.
  cbn [tl] in *. rewrite Hdata. reflexivity.
Qed.

(** X14.  Both layers work on every row of the batch by itself: in
    train/eval mode, two batches of the same shapes that agree on row [b] of
    every input give results that agree on row [b], whatever the other rows
    hold. *)
Theorem X14_rows_do_not_mix (T : Type) (zero : T) (self : layer)
    (vec_e vec_e' vec_d vec_d' vec_ed vec_ed' : ndarray T)
    (mask_e mask_e' tok_e tok_e' tok_d tok_d' : ndarray Z)
    (B L1 L2 H b : nat) :
  _mode self <> "predict"%string -> state_ready self -> b < B ->
  shape vec_e = [B; L1; H] -> shape vec_e' = [B; L1; H] ->
  shape vec_d = [B; L2; H] -> shape vec_d' = [B; L2; H] ->
  shape mask_e = [B; L1] -> shape mask_e' = [B; L1] ->
  shape vec_ed = [B; L1 + L2; H] -> shape vec_ed' = [B; L1 + L2; H] ->
  shape tok_e = [B; L1] -> shape tok_e' = [B; L1] ->
  shape tok_d = [B; L2] -> shape tok_d' = [B; L2] ->
  well_formed vec_e -> well_formed vec_e' ->
  well_formed vec_d -> well_formed vec_d' ->
  well_formed vec_ed -> well_formed vec_ed' ->
  (item vec_e b = item vec_e' b -> item vec_d b = item vec_d' b ->
   item mask_e b = item mask_e' b ->
   exists out out',
     snd (ConcatWithPadding.forward zero self (vec_e, vec_d, mask_e))
     = Ok out
     /\ snd (ConcatWithPadding.forward zero self (vec_e', vec_d', mask_e'))
        = Ok out'
     /\ item out b = item out' b)
  /\ (item vec_ed b = item vec_ed' b -> item tok_e b = item tok_e' b ->
      exists out out',
        snd (StripFromConcatenateWithPadding.forward self
               (vec_ed, tok_e, tok_d)) = Ok out
        /\ snd (StripFromConcatenateWithPadding.forward self
                  (vec_ed', tok_e', tok_d')) = Ok out'
        /\ item out b = item out' b).
Proof.
  intros Hmode Hready Hb He He' Hd Hd' Hm Hm' Hed Hed' Hte Hte' Htd Htd'
    Hwe Hwe' Hwd Hwd' Hwed Hwed'.
  split.
  - intros Hre Hrd Hrm.
    destruct (ConcatWithPadding_items zero mask_e He Hd Hm Hwe Hwd)
      as (out & Hout & Hshape & Hwf & Hitems).
    destruct (ConcatWithPadding_items zero mask_e' He' Hd' Hm' Hwe' Hwd')
      as (out' & Hout' & Hshape' & Hwf' & Hitems').
    exists out, out'.
    rewrite !ConcatWithPadding_forward_train by assumption. cbn [snd].
    split; [exact Hout|]. split; [exact Hout'|].
    apply (row_ext Hshape Hshape' Hwf Hwf' Hb). intros p Hp.
    rewrite Hitems, Hitems' by assumption.
    rewrite Hre, Hrd, Hrm. reflexivity.
  - intros Hred Hrte.
    destruct (Strip_items tok_e tok_d Hed Hte Htd Hwed)
      as (out & Hout & Hshape & Hwf & Hitems).
    destruct (Strip_items tok_e' tok_d' Hed' Hte' Htd' Hwed')
      as (out' & Hout' & Hshape' & Hwf' & Hitems').
    exists out, out'.
    rewrite !Strip_forward_train by assumption. cbn [snd].
    split; [exact Hout|]. split; [exact Hout'|].
    apply (row_ext Hshape Hshape' Hwf Hwf' Hb). intros q Hq.
    rewrite Hitems, Hitems' by assumption.
    rewrite Hred, Hrte. reflexivity.
Qed.

Lemma X14_rows_do_not_mix_witness :
  exists out out',
    snd (ConcatWithPadding.forward 0%Z Examples.train_layer
           (Examples2.vec_e, Examples2.vec_d, Examples2.mask_e)) = Ok out
    /\ snd (ConcatWithPadding.forward 0%Z Examples.train_layer
              (NDArray [2; 2; 2] [1; 2; 3; 4; 0; 0; 0; 0]%Z,
               NDArray [2; 1; 2] [10; 11; 0; 0]%Z,
               NDArray [2; 2] [1; 0; 0; 0]%Z)) = Ok out'
    /\ item out 0 = item out' 0.
Proof.
  refine (proj1
            (@X14_rows_do_not_mix Z 0%Z Examples.train_layer
               Examples2.vec_e (NDArray [2; 2; 2] [1; 2; 3; 4; 0; 0; 0; 0]%Z)
               Examples2.vec_d (NDArray [2; 1; 2] [10; 11; 0; 0]%Z)
               (NDArray [2; 2 + 1; 2] [0; 0; 0; 0; 0; 0; 0; 0; 0; 0; 0; 0]%Z)
               (NDArray [2; 2 + 1; 2] [0; 0; 0; 0; 0; 0; 0; 0; 0; 0; 0; 0]%Z)
               Examples2.mask_e (NDArray [2; 2] [1; 0; 0; 0]%Z)
               Examples2.mask_e Examples2.mask_e
               Examples2.tok_d Examples2.tok_d
               2 2 1 2 0
               _ _ _ _ _ _ _ _ _ _ _ _ _ _ _ _ _ _ _ _ _) _ _ _);
    try reflexivity; try discriminate; lia.
Defined.
